(** * Medical booking bot: the dialogue engine of [app.py]

    A shallow embedding of the request handler [chat] of [src/app.py] and of
    the helpers it calls ([validate_date], [validate_time], [is_valid_email]),
    with the properties of the natural-language specification stated and
    proved over it.

    Conventions.
    - A Python [str] is a [string]; a character is a code point below 256
      (ASCII and the Latin-1 supplement), classified and case-mapped as
      CPython does for those code points. This is the alphabet of the
      handler.
    - [datetime.strptime] also reads decimal digits that are outside this
      alphabet. The two validators are therefore modelled a second time, on
      a [str] of any code points (module [Unicode]), and shown to be the
      validators of the handler on the strings of its alphabet.
    - The Flask session is a record of the three kinds of keys the handler
      reads and writes; the five slots are a finite map from the field name.
    - The language-model chains and [urllib.parse.urljoin] are collaborators
      of the handler: they are variables of the section that defines [chat]. *)

From Stdlib Require Import Ascii String List Bool NArith ZArith Arith Lia.
From stdpp Require Import base option strings list gmap.

Local Open Scope string_scope.

(** ** Characters and [str] methods *)

Module Py.

Definition code (c : ascii) : N := N_of_ascii c.

Definition between (lo hi : N) (c : ascii) : bool :=
  ((lo <=? code c) && (code c <=? hi))%N.

(** [str.isspace] on one character, which is also the class [\s] of [re] on
    [str] patterns: TAB..CR, FS..US, SPACE, NEL and NBSP. *)
Definition is_space (c : ascii) : bool :=
  between 9 13 c || between 28 32 c || (code c =? 133)%N || (code c =? 160)%N.

(** The class [\d] of [re]: the decimal digits; below 256 these are 0..9. *)
Definition is_digit (c : ascii) : bool := between 48 57 c.

(** The letters [str.lower] changes: A..Z and, in the Latin-1 supplement,
    U+00C0..U+00DE but for the multiplication sign U+00D7; each maps to the
    code point 32 above. *)
Definition is_upper (c : ascii) : bool :=
  between 65 90 c || between 192 214 c || between 216 222 c.

Definition lower_char (c : ascii) : ascii :=
  if is_upper c then ascii_of_N (code c + 32) else c.

(** [str.lower] *)
Fixpoint lower (s : string) : string :=
  match s with
  | EmptyString => EmptyString
  | String c s' => String (lower_char c) (lower s')
  end.

Fixpoint lstrip (s : string) : string :=
  match s with
  | EmptyString => EmptyString
  | String c s' => if is_space c then lstrip s' else s
  end.

Fixpoint rstrip (s : string) : string :=
  match s with
  | EmptyString => EmptyString
  | String c s' =>
      match rstrip s' with
      | EmptyString => if is_space c then EmptyString else String c EmptyString
      | r => String c r
      end
  end.

(** [str.strip] with no argument *)
Definition strip (s : string) : string := rstrip (lstrip s).

(** [w in s] on two [str]: [w] occurs in [s] as a substring *)
Fixpoint contains (w s : string) : bool :=
  String.prefix w s ||
  match s with
  | EmptyString => false
  | String _ s' => contains w s'
  end.

(** [x in l] on a list of [str] *)
Definition mem (x : string) (l : list string) : bool :=
  existsb (String.eqb x) l.

(** [sep.join(l)] *)
Fixpoint join (sep : string) (l : list string) : string :=
  match l with
  | [] => ""
  | [x] => x
  | x :: l' => x +:+ sep +:+ join sep l'
  end.

(** the truth value of a [str] *)
Definition truthy (s : string) : bool :=
  match s with EmptyString => false | _ => true end.

End Py.

(** the line feed *)
Definition newline : string := String "010" "".

(** every character of [s] is in the class [p] *)
Fixpoint all_chars (p : ascii -> bool) (s : string) : bool :=
  match s with
  | EmptyString => true
  | String c s' => p c && all_chars p s'
  end.

(** ** Placeholder detection (the [bad_values] test of [chat]) *)

Definition required_fields : list string :=
  ["name"; "email"; "service"; "date"; "time"].

Definition bad_values : list string :=
  [ ""; "john doe"; "your name"; "name"; "example"; "abc@example.com";
    "johndoe@example.com"; "johndoe@example.com"; "john@example.com";
    "someone@example.com"; "user"; "user@gmail.com"; "user@example.com";
    "unknown"; "unknown@gmail.com"; "You didn't mention your name";
    "You didn't mention your email" ].

(** [value = getattr(booking_info, field, "").strip().lower()] followed by
    [value in bad_values] *)
Definition is_placeholder (raw : string) : bool :=
  Py.mem (Py.lower (Py.strip raw)) bad_values.

(** ** A backtracking matcher for the fragment of [re] the program uses

    Alternation is ordered and repetition is greedy, as in [re]: the first
    match in that order is the one returned. *)

Module Re.

Inductive regex : Type :=
| Cls (p : ascii -> bool)            (* one character of a class *)
| Plus (p : ascii -> bool)           (* [...]+ over a class *)
| Seq (r1 r2 : regex)
| Alt (r1 r2 : regex)
| Group (name : string) (r : regex)  (* (?P<name>...) *)
| Bos                                (* ^ *)
| Eos.                               (* $ *)

Definition groups := list (string * string).

(** [$] holds at the end of the string and just before a final newline. *)
Definition at_end (s : string) : bool :=
  match s with
  | EmptyString => true
  | String c EmptyString => (Py.code c =? 10)%N
  | _ => false
  end.

Section Matcher.
Context {A : Type}.

Fixpoint plus_match (p : ascii -> bool) (pos : nat) (s : string)
    (k : nat -> string -> option A) : option A :=
  match s with
  | EmptyString => None
  | String c s' =>
      if p c then
        match plus_match p (S pos) s' k with
        | Some x => Some x
        | None => k (S pos) s'
        end
      else None
  end.

(** [match_re r pos s g k]: match [r] at offset [pos], where [s] is what is
    left of the subject, then go on with [k]; [None] makes the matcher
    backtrack. *)
Fixpoint match_re (r : regex) (pos : nat) (s : string) (g : groups)
    (k : nat -> string -> groups -> option A) : option A :=
  match r with
  | Cls p =>
      match s with
      | EmptyString => None
      | String c s' => if p c then k (S pos) s' g else None
      end
  | Plus p => plus_match p pos s (fun pos' s' => k pos' s' g)
  | Seq r1 r2 =>
      match_re r1 pos s g (fun pos' s' g' => match_re r2 pos' s' g' k)
  | Alt r1 r2 =>
      match match_re r1 pos s g k with
      | Some x => Some x
      | None => match_re r2 pos s g k
      end
  | Group n r1 =>
      match_re r1 pos s g
        (fun pos' s' g' => k pos' s' ((n, String.substring 0 (pos' - pos) s) :: g'))
  | Bos => if Nat.eqb pos 0 then k pos s g else None
  | Eos => if at_end s then k pos s g else None
  end.

End Matcher.

(** the match is complete: report its end offset and its groups *)
Definition final : nat -> string -> groups -> option (nat * groups) :=
  fun pos _ g => Some (pos, g).

(** [re.match(r, s)]: the end offset and the groups of the first match *)
Definition rmatch (r : regex) (s : string) : option (nat * groups) :=
  match_re r 0 s [] final.

(** [m.groupdict().get(n)] *)
Fixpoint group (n : string) (g : groups) : option string :=
  match g with
  | [] => None
  | (n', v) :: g' => if String.eqb n n' then Some v else group n g'
  end.

Definition chr (c : ascii) : regex := Cls (Ascii.eqb c).
Definition range (lo hi : ascii) : regex :=
  Cls (Py.between (Py.code lo) (Py.code hi)).
Definition digit : regex := Cls Py.is_digit.

Fixpoint alts (r : regex) (rs : list regex) : regex :=
  match rs with
  | [] => r
  | r' :: rs' => Alt r (alts r' rs')
  end.

Fixpoint seqs (r : regex) (rs : list regex) : regex :=
  match rs with
  | [] => r
  | r' :: rs' => Seq r (seqs r' rs')
  end.

(** [lang r pos u rest g g']: what it means for [r] to match [u] at offset
    [pos] when [rest] follows, extending the groups [g] to [g']. *)
Fixpoint lang (r : regex) (pos : nat) (u rest : string) (g g' : groups) : Prop :=
  match r with
  | Cls p => exists c, u = String c "" /\ p c = true /\ g' = g
  | Plus p => u <> "" /\ all_chars p u = true /\ g' = g
  | Seq r1 r2 =>
      exists u1 u2 g1,
        u = u1 +:+ u2 /\ lang r1 pos u1 (u2 +:+ rest) g g1 /\
        lang r2 (pos + String.length u1) u2 rest g1 g'
  | Alt r1 r2 => lang r1 pos u rest g g' \/ lang r2 pos u rest g g'
  | Group n r1 => exists g1, lang r1 pos u rest g g1 /\ g' = (n, u) :: g1
  | Bos => u = "" /\ pos = 0 /\ g' = g
  | Eos => u = "" /\ at_end rest = true /\ g' = g
  end.

End Re.

(** ** [is_valid_email] *)

(** the class [[^@\s]] *)
Definition not_at_space (c : ascii) : bool :=
  negb (Ascii.eqb c "@") && negb (Py.is_space c).

(** the class [[a-zA-Z0-9]] *)
Definition alnum (c : ascii) : bool :=
  Py.between 97 122 c || Py.between 65 90 c || Py.between 48 57 c.

(** [r"^[^@\s]+@[^@\s]+\.[a-zA-Z0-9]+$"] *)
Definition email_pattern : Re.regex :=
  Re.seqs Re.Bos
    [ Re.Plus not_at_space; Re.chr "@"; Re.Plus not_at_space; Re.chr ".";
      Re.Plus alnum; Re.Eos ].

Definition is_valid_email (email : string) : bool :=
  match Re.rmatch email_pattern email with
  | Some _ => true
  | None => false
  end.

(** ** [datetime.strptime] for the directives the program uses

    The regular expressions are those of [_strptime.TimeRE]; the range check
    is that of the [date] constructor. The strings are those of the alphabet
    of the handler, in which the decimal digits are 0..9; [Unicode.strptime]
    below is the same function on every [str]. *)

Module Strptime.

Import Re.
Local Open Scope Z_scope.

Definition directive (d : ascii) : option regex :=
  if Ascii.eqb d "Y" then
    Some (Group "Y" (seqs digit [digit; digit; digit]))
  else if Ascii.eqb d "m" then
    (* 1[0-2]|0[1-9]|[1-9] *)
    Some (Group "m" (alts (Seq (chr "1") (range "0" "2"))
                          [Seq (chr "0") (range "1" "9"); range "1" "9"]))
  else if Ascii.eqb d "d" then
    (* 3[0-1]|[1-2]\d|0[1-9]|[1-9]| [1-9] *)
    Some (Group "d" (alts (Seq (chr "3") (range "0" "1"))
                          [Seq (range "1" "2") digit;
                           Seq (chr "0") (range "1" "9");
                           range "1" "9";
                           Seq (chr " ") (range "1" "9")]))
  else if Ascii.eqb d "H" then
    (* 2[0-3]|[0-1]\d|\d *)
    Some (Group "H" (alts (Seq (chr "2") (range "0" "3"))
                          [Seq (range "0" "1") digit; digit]))
  else if Ascii.eqb d "M" then
    (* [0-5]\d|\d *)
    Some (Group "M" (Alt (Seq (range "0" "5") digit) digit))
  else None.

(** [TimeRE.pattern]: a directive becomes its expression ([None] for a
    directive that is not listed above or a stray [%]); any other character of
    the two formats of the program ([-] and [:]) stands for itself. *)
Fixpoint pattern (format : string) : option (list regex) :=
  match format with
  | EmptyString => Some []
  | String "%" EmptyString => None
  | String "%" (String d rest) =>
      match directive d, pattern rest with
      | Some r, Some rs => Some (r :: rs)
      | _, _ => None
      end
  | String c rest =>
      match pattern rest with
      | Some rs => Some (chr c :: rs)
      | None => None
      end
  end.

Definition compile (format : string) : option regex :=
  match pattern format with
  | Some (r :: rs) => Some (seqs r rs)
  | _ => None
  end.

Fixpoint digits_value (acc : Z) (s : string) : Z :=
  match s with
  | EmptyString => acc
  | String c s' => digits_value (10 * acc + (Z.of_N (Py.code c) - 48)) s'
  end.

(** [int(s)] on what a directive matched: decimal digits, after a blank for
    a day written as [" 7"] *)
Definition int (s : string) : Z := digits_value 0 (Py.strip s).

Definition is_leap (year : Z) : bool :=
  (year mod 4 =? 0) && (negb (year mod 100 =? 0) || (year mod 400 =? 0)).

Definition days_in_month (year month : Z) : Z :=
  if (month =? 2) && is_leap year then 29
  else nth (Z.to_nat month) [0; 31; 28; 31; 30; 31; 30; 31; 31; 30; 31; 30; 31] 0.

(** [_check_date_fields] *)
Definition check_date_fields (year month day : Z) : bool :=
  (1 <=? year) && (year <=? 9999) && (1 <=? month) && (month <=? 12) &&
  (1 <=? day) && (day <=? days_in_month year month).

Record parsed := { year : Z; month : Z; day : Z; hour : Z; minute : Z }.

Definition field (n : string) (g : groups) (default : Z) : Z :=
  match group n g with
  | Some v => int v
  | None => default
  end.

(** [datetime.strptime(data_string, format)]; [None] is a [ValueError]. *)
Definition strptime (data_string format : string) : option parsed :=
  match compile format with
  | None => None
  | Some format_regex =>
      match rmatch format_regex data_string with
      | None => None                       (* does not match format *)
      | Some (found_end, found) =>
          if negb (String.length data_string =? found_end)%nat then None
                                           (* unconverted data remains *)
          else
            let month := field "m" found 1 in
            let day := field "d" found 1 in
            let year :=
              match group "Y" found with
              | Some v => int v
              | None => if (month =? 2) && (day =? 29) then 1904 else 1900
              end in
            if check_date_fields year month day then
              Some {| year := year; month := month; day := day;
                      hour := field "H" found 0; minute := field "M" found 0 |}
            else None
      end
  end.

End Strptime.

(** what [compile] makes of the two formats of the program *)
Definition date_regex : Re.regex :=
  Re.Seq (Re.Group "Y" (Re.Seq Re.digit (Re.Seq Re.digit (Re.Seq Re.digit Re.digit))))
    (Re.Seq (Re.chr "-")
       (Re.Seq
          (Re.Group "m"
             (Re.Alt (Re.Seq (Re.chr "1") (Re.range "0" "2"))
                (Re.Alt (Re.Seq (Re.chr "0") (Re.range "1" "9")) (Re.range "1" "9"))))
          (Re.Seq (Re.chr "-")
             (Re.Group "d"
                (Re.Alt (Re.Seq (Re.chr "3") (Re.range "0" "1"))
                   (Re.Alt (Re.Seq (Re.range "1" "2") Re.digit)
                      (Re.Alt (Re.Seq (Re.chr "0") (Re.range "1" "9"))
                         (Re.Alt (Re.range "1" "9")
                            (Re.Seq (Re.chr " ") (Re.range "1" "9")))))))))).

Definition time_regex : Re.regex :=
  Re.Seq
    (Re.Group "H"
       (Re.Alt (Re.Seq (Re.chr "2") (Re.range "0" "3"))
          (Re.Alt (Re.Seq (Re.range "0" "1") Re.digit) Re.digit)))
    (Re.Seq (Re.chr ":")
       (Re.Group "M" (Re.Alt (Re.Seq (Re.range "0" "5") Re.digit) Re.digit))).

Definition in_range (lo hi v : Z) : bool := ((lo <=? v) && (v <=? hi))%Z.

(** [validate_date] and [validate_time] on a [str] of the alphabet of the
    handler; on every [str] they are [Unicode.validate_date] and
    [Unicode.validate_time] below. *)
Definition validate_date (date_str : string) : bool :=
  match Strptime.strptime date_str "%Y-%m-%d" with
  | Some _ => true
  | None => false
  end.

Definition validate_time (time_str : string) : bool :=
  match Strptime.strptime time_str "%H:%M" with
  | Some _ => true
  | None => false
  end.

(** ** The validators on every [str]

    [validate_date] and [validate_time] above read a [str] of the alphabet of
    the handler. [Unicode.validate_date] and [Unicode.validate_time] read a
    [str] of any code points: the class [\d] of the directives matches every
    decimal digit of the Unicode database and [int] reads its value, while the
    ranges of the directives, such as [[0-2]], are ASCII. [_strptime] compiles
    its patterns with [IGNORECASE], which changes nothing for digits, [-],
    [:] and the blank. The database is a parameter, [decimal];
    [Unicode.unicode14] is the one of CPython 3.11. *)

Module Unicode.

(** a [str] as the list of its code points *)
Definition str : Type := list N.

(** the code points of a [str] of the handler's alphabet *)
Definition of_string (s : string) : str := map Py.code (list_ascii_of_string s).

Definition between (lo hi c : N) : bool := ((lo <=? c) && (c <=? hi))%N.

(** [str.isspace] on one character ([Py_UNICODE_ISSPACE]) *)
Definition is_space (c : N) : bool :=
  (between 9 13 c || between 28 32 c || (c =? 133) || (c =? 160) || (c =? 5760)
   || between 8192 8202 c || (c =? 8232) || (c =? 8233) || (c =? 8239)
   || (c =? 8287) || (c =? 12288))%N.

(** The fragment of [re] the directives are written in, and its matcher:
    as in [Re], alternation is ordered and the first match is returned. *)
Inductive regex : Type :=
| Cls (p : N -> bool)                (* one character of a class *)
| Seq (r1 r2 : regex)
| Alt (r1 r2 : regex)
| Group (name : string) (r : regex). (* (?P<name>...) *)

Definition groups := list (string * str).

Section Matcher.
Context {A : Type}.

Fixpoint match_re (r : regex) (pos : nat) (s : str) (g : groups)
    (k : nat -> str -> groups -> option A) : option A :=
  match r with
  | Cls p =>
      match s with
      | [] => None
      | c :: s' => if p c then k (S pos) s' g else None
      end
  | Seq r1 r2 =>
      match_re r1 pos s g (fun pos' s' g' => match_re r2 pos' s' g' k)
  | Alt r1 r2 =>
      match match_re r1 pos s g k with
      | Some x => Some x
      | None => match_re r2 pos s g k
      end
  | Group n r1 =>
      match_re r1 pos s g
        (fun pos' s' g' => k pos' s' ((n, take (pos' - pos) s) :: g'))
  end.

End Matcher.

(** the match is complete: report its end offset and its groups *)
Definition final : nat -> str -> groups -> option (nat * groups) :=
  fun pos _ g => Some (pos, g).

(** [re.match(r, s)] *)
Definition rmatch (r : regex) (s : str) : option (nat * groups) :=
  match_re r 0 s [] final.

(** [m.groupdict().get(n)] *)
Fixpoint group (n : string) (g : groups) : option str :=
  match g with
  | [] => None
  | (n', v) :: g' => if String.eqb n n' then Some v else group n g'
  end.

Definition chr (c : ascii) : regex := Cls (N.eqb (Py.code c)).
Definition range (lo hi : ascii) : regex := Cls (between (Py.code lo) (Py.code hi)).

Fixpoint alts (r : regex) (rs : list regex) : regex :=
  match rs with
  | [] => r
  | r' :: rs' => Alt r (alts r' rs')
  end.

Fixpoint seqs (r : regex) (rs : list regex) : regex :=
  match rs with
  | [] => r
  | r' :: rs' => Seq r (seqs r' rs')
  end.

(** [lang r pos u rest g g']: what it means for [r] to match [u] at offset
    [pos] when [rest] follows, extending the groups [g] to [g']. *)
Fixpoint lang (r : regex) (pos : nat) (u rest : str) (g g' : groups) : Prop :=
  match r with
  | Cls p => exists c, u = [c] /\ p c = true /\ g' = g
  | Seq r1 r2 =>
      exists u1 u2 g1,
        u = (u1 ++ u2)%list /\ lang r1 pos u1 (u2 ++ rest)%list g g1 /\
        lang r2 (pos + length u1) u2 rest g1 g'
  | Alt r1 r2 => lang r1 pos u rest g g' \/ lang r2 pos u rest g g'
  | Group n r1 => exists g1, lang r1 pos u rest g g1 /\ g' = (n, u) :: g1
  end.

(** [s] without the characters of the class [p] at its left end, and at its
    right end *)
Fixpoint lskip (p : N -> bool) (s : str) : str :=
  match s with
  | [] => []
  | c :: s' => if p c then lskip p s' else s
  end.

Fixpoint rskip (p : N -> bool) (s : str) : str :=
  match s with
  | [] => []
  | c :: s' =>
      match rskip p s' with
      | [] => if p c then [] else [c]
      | r => c :: r
      end
  end.

(** The whitespace [int] skips at the two ends of a [str]: the ASCII
    whitespace TAB..CR and SPACE, and the whitespace from U+007F on, which
    [int] turns into blanks before it parses. *)
Definition int_space (c : N) : bool :=
  (between 9 13 c || (c =? 32) || ((127 <=? c) && is_space c))%N.

(** [_check_time_fields], for the hour and the minute *)
Definition check_time_fields (hour minute : Z) : bool :=
  ((0 <=? hour) && (hour <=? 23) && (0 <=? minute) && (minute <=? 59))%Z.

Section Database.

(** [Py_UNICODE_TODECIMAL]: the value of a code point that is a decimal
    digit in the Unicode database of the interpreter, [None] for any other *)
Variable decimal : N -> option Z.

(** the class [\d] of [re] on a [str] pattern *)
Definition is_decimal (c : N) : bool :=
  match decimal c with Some _ => true | None => false end.

Definition digit : regex := Cls is_decimal.

(** the regular expressions of [_strptime.TimeRE] *)
Definition directive (d : ascii) : option regex :=
  if Ascii.eqb d "Y" then
    Some (Group "Y" (seqs digit [digit; digit; digit]))
  else if Ascii.eqb d "m" then
    Some (Group "m" (alts (Seq (chr "1") (range "0" "2"))
                          [Seq (chr "0") (range "1" "9"); range "1" "9"]))
  else if Ascii.eqb d "d" then
    Some (Group "d" (alts (Seq (chr "3") (range "0" "1"))
                          [Seq (range "1" "2") digit;
                           Seq (chr "0") (range "1" "9");
                           range "1" "9";
                           Seq (chr " ") (range "1" "9")]))
  else if Ascii.eqb d "H" then
    Some (Group "H" (alts (Seq (chr "2") (range "0" "3"))
                          [Seq (range "0" "1") digit; digit]))
  else if Ascii.eqb d "M" then
    Some (Group "M" (Alt (Seq (range "0" "5") digit) digit))
  else None.

Fixpoint pattern (format : string) : option (list regex) :=
  match format with
  | EmptyString => Some []
  | String "%" EmptyString => None
  | String "%" (String d rest) =>
      match directive d, pattern rest with
      | Some r, Some rs => Some (r :: rs)
      | _, _ => None
      end
  | String c rest =>
      match pattern rest with
      | Some rs => Some (chr c :: rs)
      | None => None
      end
  end.

Definition compile (format : string) : option regex :=
  match pattern format with
  | Some (r :: rs) => Some (seqs r rs)
  | _ => None
  end.

(** what [compile] makes of the two formats of the program *)
Definition year_group : regex :=
  Group "Y" (Seq digit (Seq digit (Seq digit digit))).

Definition month_group : regex :=
  Group "m"
    (Alt (Seq (chr "1") (range "0" "2"))
       (Alt (Seq (chr "0") (range "1" "9")) (range "1" "9"))).

Definition day_group : regex :=
  Group "d"
    (Alt (Seq (chr "3") (range "0" "1"))
       (Alt (Seq (range "1" "2") digit)
          (Alt (Seq (chr "0") (range "1" "9"))
             (Alt (range "1" "9") (Seq (chr " ") (range "1" "9")))))).

Definition hour_group : regex :=
  Group "H"
    (Alt (Seq (chr "2") (range "0" "3"))
       (Alt (Seq (range "0" "1") digit) digit)).

Definition minute_group : regex :=
  Group "M" (Alt (Seq (range "0" "5") digit) digit).

Definition date_regex : regex :=
  Seq year_group (Seq (chr "-") (Seq month_group (Seq (chr "-") day_group))).

Definition time_regex : regex :=
  Seq hour_group (Seq (chr ":") minute_group).

(** the value of a numeral written in decimal digits; [None] for a
    character that is not one *)
Fixpoint digits_value (acc : Z) (s : str) : option Z :=
  match s with
  | [] => Some acc
  | c :: s' =>
      match decimal c with
      | Some v => digits_value (10 * acc + v) s'
      | None => None
      end
  end.

(** [int(s)] on a numeral in decimal digits with whitespace around it;
    [None] is a [ValueError] *)
Definition int (s : str) : option Z :=
  match rskip int_space (lskip int_space s) with
  | [] => None
  | digits => digits_value 0 digits
  end.

Definition field (n : string) (g : groups) (default : Z) : option Z :=
  match group n g with
  | Some v => int v
  | None => Some default
  end.

(** [datetime.strptime(data_string, format)]; [None] is a [ValueError] *)
Definition strptime (data_string : str) (format : string) : option Strptime.parsed :=
  format_regex ← compile format;
  found ← rmatch format_regex data_string;
  if negb (length data_string =? found.1)%nat then None
  else
    month ← field "m" found.2 1;
    day ← field "d" found.2 1;
    year ← match group "Y" found.2 with
           | Some v => int v
           | None => Some (if (month =? 2)%Z && (day =? 29)%Z then 1904 else 1900)%Z
           end;
    hour ← field "H" found.2 0;
    minute ← field "M" found.2 0;
    if Strptime.check_date_fields year month day && check_time_fields hour minute
    then Some {| Strptime.year := year; Strptime.month := month; Strptime.day := day;
                 Strptime.hour := hour; Strptime.minute := minute |}
    else None.

Definition validate_date (date_str : str) : bool :=
  match strptime date_str "%Y-%m-%d" with
  | Some _ => true
  | None => false
  end.

Definition validate_time (time_str : str) : bool :=
  match strptime time_str "%H:%M" with
  | Some _ => true
  | None => false
  end.

End Database.

(** What the statements need of the Unicode database: below U+0100 the
    decimal digits are 0..9 with their values, the value of a decimal digit
    is from 0 to 9, and no decimal digit is whitespace. *)
Record database (decimal : N -> option Z) : Prop := {
  decimal_latin1 : forall c, (c < 256)%N ->
    decimal c = if between 48 57 c then Some (Z.of_N c - 48)%Z else None;
  decimal_value : forall c v, decimal c = Some v -> (0 <= v <= 9)%Z;
  decimal_no_space : forall c v, decimal c = Some v -> is_space c = false
}.

(** The decimal digits of Unicode 14.0, the database of CPython 3.11: 66
    runs of ten code points, each from a digit zero to a digit nine. *)
Definition zeros : list N :=
  [48; 1632; 1776; 1984; 2406; 2534; 2662; 2790; 2918; 3046; 3174; 3302; 3430;
   3558; 3664; 3792; 3872; 4160; 4240; 6112; 6160; 6470; 6608; 6784; 6800;
   6992; 7088; 7232; 7248; 42528; 43216; 43264; 43472; 43504; 43600; 44016;
   65296; 66720; 68912; 69734; 69872; 69942; 70096; 70384; 70736; 70864;
   71248; 71360; 71472; 71904; 72016; 72784; 73040; 73120; 92768; 92864;
   93008; 120782; 120792; 120802; 120812; 120822; 123200; 123632; 125264;
   130032]%N.

Definition unicode14 (c : N) : option Z :=
  match List.find (fun zero => between zero (zero + 9) c) zeros with
  | Some zero => Some (Z.of_N (c - zero))
  | None => None
  end.

End Unicode.

(** ** [urllib.parse.urlencode] on a [dict] of [str] *)

Module Url.

Definition hex_digit (n : N) : ascii :=
  ascii_of_N (if (n <? 10)%N then 48 + n else 55 + n).

(** ['%{:02X}'.format(b)] *)
Definition percent (b : N) : string :=
  String "%" (String (hex_digit (b / 16)) (String (hex_digit (b mod 16)) "")).

(** the UTF-8 encoding of a code point below 256 *)
Definition utf8 (c : ascii) : list N :=
  if (Py.code c <? 128)%N then [Py.code c]
  else [192 + Py.code c / 64; 128 + Py.code c mod 64]%N.

(** [_ALWAYS_SAFE]: the ASCII letters and digits and [_.-~] *)
Definition always_safe (c : ascii) : bool :=
  Py.between 97 122 c || Py.between 65 90 c || Py.between 48 57 c ||
  Ascii.eqb c "_" || Ascii.eqb c "." || Ascii.eqb c "-" || Ascii.eqb c "~".

Definition quote_plus_char (c : ascii) : string :=
  if always_safe c then String c ""
  else if Ascii.eqb c " " then "+"
  else String.concat "" (map percent (utf8 c)).

(** [quote_plus(s)] *)
Fixpoint quote_plus (s : string) : string :=
  match s with
  | EmptyString => ""
  | String c s' => quote_plus_char c +:+ quote_plus s'
  end.

(** [urlencode(query)] *)
Definition urlencode (query : list (string * string)) : string :=
  Py.join "&" (map (fun kv => quote_plus kv.1 +:+ "=" +:+ quote_plus kv.2) query).

End Url.

(** ** The extraction result and the session *)

Module BookingInfo.
Record t : Type := { name : string; email : string; service : string;
                     date : string; time : string }.
End BookingInfo.

(** [getattr(booking_info, field, default)] *)
Definition getattr (booking_info : BookingInfo.t) (field default : string) : string :=
  if field =? "name" then BookingInfo.name booking_info
  else if field =? "email" then BookingInfo.email booking_info
  else if field =? "service" then BookingInfo.service booking_info
  else if field =? "date" then BookingInfo.date booking_info
  else if field =? "time" then BookingInfo.time booking_info
  else default.

(** An item of the [loc] tuple of a pydantic error: a field name, or an
    index into a sequence. *)
Inductive loc_item : Type :=
| LocStr (name : string)
| LocInt (index : Z).

(** What [booking_chain.invoke] does: it returns a [BookingInfo], or raises
    a pydantic [ValidationError] whose [errors()] each carry a [loc] tuple
    (empty for an error that is about the whole object), or raises anything
    else. *)
Inductive extraction : Type :=
| Extracted (booking_info : BookingInfo.t)
| ValidationError (errors : list (list loc_item))
| Failure.

Record turn : Type := { role : string; content : string }.

(** The keys of the Flask session: the history (an absent key reads as the
    empty list), the flag (absent, [False] or [True]) and the slots. *)
Record session : Type := {
  conversation_history : list turn;
  booking_in_progress : option bool;
  slots : gmap string string
}.

Definition set_flag (b : bool) (s : session) : session :=
  {| conversation_history := conversation_history s;
     booking_in_progress := Some b;
     slots := slots s |}.

Definition set_slots (m : gmap string string) (s : session) : session :=
  {| conversation_history := conversation_history s;
     booking_in_progress := booking_in_progress s;
     slots := m |}.

Definition get_memory (s : session) : list turn := conversation_history s.

Definition save_memory (history : list turn) (s : session) : session :=
  {| conversation_history := history;
     booking_in_progress := booking_in_progress s;
     slots := slots s |}.

(** [session.get(field, "")] *)
Definition slot (s : session) (field : string) : string :=
  default "" (slots s !! field).

Record request : Type := { msg : string; host_url : string }.

(** ** The handler [chat] *)

Definition booking_keywords : list string :=
  ["book"; "appointment"; "schedule"; "reserve"; "meeting"; "session"; "therapy"].

Definition is_booking_flow (msg : string) (s : session) : bool :=
  existsb (fun word => Py.contains word (Py.lower msg)) booking_keywords
  || default false (booking_in_progress s).

Definition existing_info (s : session) : list (string * string) :=
  map (fun k => (k, slot s k)) required_fields.

Definition combined_input (s : session) (msg : string) : string :=
  Py.join " "
    (map (fun kv => "My " +:+ kv.1 +:+ " is " +:+ kv.2 +:+ ".")
         (List.filter (fun kv => Py.truthy kv.2) (existing_info s)))
  +:+ " " +:+ msg.

(** the three steps that fill [missing_fields] *)
Definition placeholder_fields (booking_info : BookingInfo.t) : list string :=
  fold_left
    (fun missing field =>
       if is_placeholder (getattr booking_info field "")
       then (missing ++ [field])%list else missing)
    required_fields [].

Definition check_field (field : string) (valid : bool) (missing : list string)
  : list string :=
  if negb (Py.mem field missing) && negb valid then (missing ++ [field])%list
  else missing.

Definition missing_fields (booking_info : BookingInfo.t) : list string :=
  let missing := placeholder_fields booking_info in
  let missing :=
    check_field "date" (validate_date (BookingInfo.date booking_info)) missing in
  let missing :=
    check_field "time" (validate_time (BookingInfo.time booking_info)) missing in
  check_field "email" (is_valid_email (BookingInfo.email booking_info)) missing.

(** the loop under [=== Store valid partial info ===] *)
Definition store_fields (booking_info : BookingInfo.t) (m : gmap string string)
  : gmap string string :=
  fold_left
    (fun m field =>
       let value := Py.strip (getattr booking_info field "") in
       if negb (Py.mem (Py.lower value) bad_values) then <[field := value]> m
       else m)
    required_fields m.

Definition user_turn (text : string) : turn :=
  {| role := "user"; content := text |}.
Definition assistant_turn (text : string) : turn :=
  {| role := "assistant"; content := text |}.

Definition follow_up (missing : list string) : string :=
  "Sure! To proceed, please provide your " +:+ Py.join ", " missing +:+ ".".

(** What [', '.join(error_fields)] asks of an item: it is a [str], the
    item itself; for an [int] the call raises a [TypeError] ([None]). *)
Definition str_item (item : loc_item) : option string :=
  match item with
  | LocStr name => Some name
  | LocInt _ => None
  end.

(** The reply of the [except ValidationError] clause; [None] when [join]
    raises. *)
Definition schema_reply (error_fields : list loc_item) : option string :=
  names ← mapM str_item error_fields;
  Some ("Missing or invalid: " +:+ Py.join ", " names +:+ ". Please provide them.").

Definition recovery_reply : string :=
  "Sorry, I couldn't understand all the booking details. Could you please provide your name, email, preferred date, and time?".

Definition link_reply (booking_url : string) : string :=
  "You can complete your booking here: <a href='" +:+ booking_url
  +:+ "' target='_blank'>" +:+ booking_url +:+ "</a>".

(** [l[-n:]] for positive [n] *)
Definition last_n {A} (n : nat) (l : list A) : list A :=
  drop (length l - n) l.

Definition render (m : turn) : string := role m +:+ ": " +:+ content m.

Definition full_input (history : list turn) (msg : string) : string :=
  let context_messages := Py.join newline (map render (last_n 6 history)) in
  context_messages +:+ newline +:+ "user: " +:+ msg.

Section Chat.

(** [booking_chain.invoke({"input": combined_input})] *)
Variable booking_chain : string -> extraction.
(** [rag_chain.invoke({"input": full_input})["answer"]]; [None] when the call
    raises *)
Variable rag_chain : string -> option string.
(** [urllib.parse.urljoin] *)
Variable urljoin : string -> string -> string.

(** [session[k]] for the five keys, in the order of [query_params]; [None]
    is a [KeyError] *)
Definition query_params (s : session) : option (list (string * string)) :=
  mapM (fun k => v ← slots s !! k; Some (k, v)) required_fields.

Definition booking_url (req : request) (s : session) : option string :=
  let base_url := urljoin (host_url req) "book" in
  q ← query_params s;
  Some (base_url +:+ "?" +:+ Url.urlencode q).

Definition reply_with (history : list turn) (s : session) (reply : string)
  : option (session * string) :=
  Some (save_memory (history ++ [assistant_turn reply])%list s, reply).

(** The body of the [try] once the extractor has returned. A [KeyError]
    from [session[...]] is caught by [except Exception]. *)
Definition booking_turn (req : request) (history : list turn)
    (booking_info : BookingInfo.t) (s : session) : option (session * string) :=
  let missing := missing_fields booking_info in
  let s := set_slots (store_fields booking_info (slots s)) s in
  match missing with
  | _ :: _ => reply_with history s (follow_up missing)
  | [] =>
      let s := set_flag false s in
      match booking_url req s with
      | Some url => reply_with history s (link_reply url)
      | None => reply_with history s recovery_reply
      end
  end.

(** The branch under [if is_booking_flow:]. An exception raised inside the
    [except ValidationError] clause leaves the handler: the [IndexError] of
    [e['loc'][0]] on an empty [loc], the [TypeError] of [join] on an item
    that is no [str]. *)
Definition booking_branch (req : request) (history : list turn) (s : session)
  : option (session * string) :=
  let s := set_flag true s in
  match booking_chain (combined_input s (msg req)) with
  | Extracted booking_info => booking_turn req history booking_info s
  | ValidationError errors =>
      error_fields ← mapM head errors;
      reply ← schema_reply error_fields;
      reply_with history s reply
  | Failure => reply_with history s recovery_reply
  end.

(** The code under [=== General Q&A ===] *)
Definition qa_branch (req : request) (history : list turn) (s : session)
  : option (session * string) :=
  answer ← rag_chain (full_input history (msg req));
  reply_with history s answer.

(** [chat()]; [None] when an exception leaves the handler. *)
Definition chat (req : request) (s : session) : option (session * string) :=
  let conversation_history := (get_memory s ++ [user_turn (msg req)])%list in
  if is_booking_flow (msg req) s
  then booking_branch req conversation_history s
  else qa_branch req conversation_history s.

End Chat.

(** ** The vocabulary of the statements *)

(** The date validator as the specification words it: the zero-padded shape
    [YYYY-MM-DD] and a day that exists in that month of that year. *)
Definition spec_validate_date (d : string) : bool :=
  match d with
  | String y1 (String y2 (String y3 (String y4 (String "-"
      (String m1 (String m2 (String "-" (String d1 (String d2 ""))))))))) =>
      forallb Py.is_digit [y1; y2; y3; y4; m1; m2; d1; d2] &&
      (let year := Strptime.int (String y1 (String y2 (String y3 (String y4 "")))) in
       let month := Strptime.int (String m1 (String m2 "")) in
       let day := Strptime.int (String d1 (String d2 "")) in
       (1 <=? month)%Z && (month <=? 12)%Z && (1 <=? day)%Z &&
       (day <=? Strptime.days_in_month year month)%Z)
  | _ => false
  end.

(** [s] reads [local@domain.tld]: three non-empty segments, no [@] and no
    whitespace in any of them, the last one made of [tld_char]s. The
    specification asks nothing more of the last segment ([tld_char] is
    [not_at_space]); the pattern of the code asks for letters and digits
    ([tld_char] is [alnum]). *)
Definition email_shape (tld_char : ascii -> bool) (s : string) : Prop :=
  exists local domain tld : string,
    s = local +:+ "@" +:+ domain +:+ "." +:+ tld /\
    local <> "" /\ domain <> "" /\ tld <> "" /\
    all_chars not_at_space local = true /\
    all_chars not_at_space domain = true /\
    all_chars tld_char tld = true.

Fixpoint ends_with_newline (s : string) : bool :=
  match s with
  | EmptyString => false
  | String c EmptyString => (Py.code c =? 10)%N
  | String _ s' => ends_with_newline s'
  end.

(** A numeral of [lo] to [hi] decimal digits. *)
Definition numeral (lo hi : nat) (s : string) : Prop :=
  all_chars Py.is_digit s = true /\ lo <= String.length s <= hi.

(** What the [%d] directive also takes: a blank and one digit. *)
Definition blank_digit (s : string) : Prop :=
  exists c, s = String " " (String c "") /\ Py.is_digit c = true.

(** The date strings the code accepts. *)
Definition date_shape (d : string) : Prop :=
  exists Y M D : string,
    d = Y +:+ "-" +:+ M +:+ "-" +:+ D /\
    numeral 4 4 Y /\ numeral 1 2 M /\ (numeral 1 2 D \/ blank_digit D) /\
    (1 <= Strptime.int Y)%Z /\
    (1 <= Strptime.int M <= 12)%Z /\
    (1 <= Strptime.int D <= Strptime.days_in_month (Strptime.int Y) (Strptime.int M))%Z.

(** [c] is the ASCII digit of the value [v]. *)
Definition ascii_digit (c : N) (v : Z) : Prop :=
  (48 <= c <= 57)%N /\ v = (Z.of_N c - 48)%Z.

(** the leap years of the Gregorian calendar *)
Definition leap_year (year : Z) : Prop :=
  ((year mod 4 = 0 /\ year mod 100 <> 0) \/ year mod 400 = 0)%Z.

(** the number of days of a month of a year *)
Definition month_days (year month days : Z) : Prop :=
  (In month [1; 3; 5; 7; 8; 10; 12] /\ days = 31)%Z \/
  (In month [4; 6; 9; 11] /\ days = 30)%Z \/
  (month = 2 /\ leap_year year /\ days = 29)%Z \/
  (month = 2 /\ ~ leap_year year /\ days = 28)%Z.

Section AcceptedDate.

Variable decimal : N -> option Z.

(** A year: four decimal digits, ASCII or not. *)
Definition year_numeral (Y : Unicode.str) (year : Z) : Prop :=
  exists c1 c2 c3 c4 v1 v2 v3 v4,
    Y = [c1; c2; c3; c4] /\
    decimal c1 = Some v1 /\ decimal c2 = Some v2 /\
    decimal c3 = Some v3 /\ decimal c4 = Some v4 /\
    year = (1000 * v1 + 100 * v2 + 10 * v3 + v4)%Z.

(** A month: one or two ASCII digits. *)
Definition month_numeral (M : Unicode.str) (month : Z) : Prop :=
  (exists c, M = [c] /\ ascii_digit c month) \/
  (exists c1 c2 v1 v2,
      M = [c1; c2] /\ ascii_digit c1 v1 /\ ascii_digit c2 v2 /\
      month = (10 * v1 + v2)%Z).

(** A day: an ASCII digit, a blank and an ASCII digit, or an ASCII digit and
    a decimal digit, which may be one outside ASCII after [1] or [2] only. *)
Definition day_numeral (D : Unicode.str) (day : Z) : Prop :=
  (exists c, D = [c] /\ ascii_digit c day) \/
  (exists c, D = [32%N; c] /\ ascii_digit c day) \/
  (exists c1 c2 v1 v2,
      D = [c1; c2] /\ ascii_digit c1 v1 /\ decimal c2 = Some v2 /\
      (v1 = 1 \/ v1 = 2 \/ (c2 < 128)%N)%Z /\
      day = (10 * v1 + v2)%Z).

(** The date strings the code accepts, among the [str] of any code points. *)
Definition accepted_date (d : Unicode.str) : Prop :=
  exists Y M D year month day days,
    d = (Y ++ Unicode.of_string "-" ++ M ++ Unicode.of_string "-" ++ D)%list /\
    year_numeral Y year /\ month_numeral M month /\ day_numeral D day /\
    (1 <= year)%Z /\ (1 <= month <= 12)%Z /\
    month_days year month days /\ (1 <= day <= days)%Z.

End AcceptedDate.

(** The fields that pass placeholder detection and fail their validator. *)
Definition fails_validation (booking_info : BookingInfo.t) (field : string) : bool :=
  negb (is_placeholder (getattr booking_info field "")) &&
  negb (if field =? "date" then validate_date (BookingInfo.date booking_info)
        else if field =? "time" then validate_time (BookingInfo.time booking_info)
        else if field =? "email" then is_valid_email (BookingInfo.email booking_info)
        else true).

(** The time strings the code accepts are of this form. *)
Definition time_shape (t : string) : Prop :=
  exists H M : string, t = H +:+ ":" +:+ M /\ numeral 1 2 H /\ numeral 1 2 M.

Definition no_space (c : ascii) : bool := negb (Py.is_space c).

(** The whitespace that [str.strip] takes off: the code points below 256
    for which [str.isspace] holds. *)
Definition whitespace (c : ascii) : bool :=
  existsb (N.eqb (N_of_ascii c)) [9; 10; 11; 12; 13; 28; 29; 30; 31; 32; 133; 160]%N.

(** [value] is [raw] without the whitespace at its two ends: what is left
    starts and ends with a character that is no whitespace, and its
    characters are those of [raw], in their case. *)
Definition trimmed (raw value : string) : Prop :=
  exists before after,
    raw = before +:+ value +:+ after /\
    all_chars whitespace before = true /\
    all_chars whitespace after = true /\
    (forall c rest, value = String c rest -> whitespace c = false) /\
    (forall rest c, value = rest +:+ String c "" -> whitespace c = false).

(** The characters a query string keeps as they are: the ASCII letters and
    digits and [_.-~]. *)
Definition unreserved (c : ascii) : bool :=
  existsb (Ascii.eqb c)
    (list_ascii_of_string
       "ABCDEFGHIJKLMNOPQRSTUVWXYZabcdefghijklmnopqrstuvwxyz0123456789_.-~").

(** the bytes of the UTF-8 encoding of a code point below 256 *)
Definition utf8_bytes (c : ascii) : list N :=
  let n := N_of_ascii c in
  if (n <? 128)%N then [n]
  else [N.lor 192 (N.shiftr n 6); N.lor 128 (N.land n 63)].

(** a number below 16 as an upper-case hexadecimal digit *)
Definition hexadecimal (n : N) : ascii :=
  default "0"%char (String.get (N.to_nat n) "0123456789ABCDEF").

(** a byte as [%XX] *)
Definition escaped (b : N) : string :=
  String "%" (String (hexadecimal (N.shiftr b 4)) (String (hexadecimal (N.land b 15)) "")).

(** [encoded] is [value] percent-encoded for a query string: an unreserved
    character stands for itself, a blank is written [+], and any other
    character is written as the bytes of its UTF-8 encoding, each as [%XX]. *)
Inductive percent_encoded : string -> string -> Prop :=
| encoded_end : percent_encoded "" ""
| encoded_kept c value encoded :
    unreserved c = true -> percent_encoded value encoded ->
    percent_encoded (String c value) (String c encoded)
| encoded_blank value encoded :
    percent_encoded value encoded ->
    percent_encoded (String " " value) (String "+" encoded)
| encoded_escaped c value encoded :
    unreserved c = false -> c <> " "%char -> percent_encoded value encoded ->
    percent_encoded (String c value)
      (String.concat "" (map escaped (utf8_bytes c)) +:+ encoded).

(** Every error of a schema failure is located at a field: its [loc] starts
    with a name, and [names] lists these names in the order of the errors. *)
Definition located (errors : list (list loc_item)) (names : list string) : Prop :=
  Forall2 (fun loc name => exists rest, loc = LocStr name :: rest) errors names.

(** An error that is located at no field: its [loc] is empty or starts with
    an index. *)
Definition unlocated (loc : list loc_item) : Prop :=
  loc = [] \/ exists index rest, loc = LocInt index :: rest.

(** The session and the reply of a booking turn that finds nothing missing. *)
Definition completed (urljoin : string -> string -> string) (req : request)
    (history : list turn) (bi : BookingInfo.t) (s : session) : session * string :=
  let url :=
    urljoin (host_url req) "book" +:+ "?" +:+
    Url.urlencode
      (map (fun field => (field, Py.strip (getattr bi field ""))) required_fields) in
  (save_memory (history ++ [assistant_turn (link_reply url)])%list
     (set_flag false (set_slots (store_fields bi (slots s)) s)),
   link_reply url).

(** ** Sample inputs *)

Definition sample_urljoin (base url : string) : string := base +:+ url.

Definition sample_rag (query : string) : option string :=
  Some "We offer therapy and counselling.".

Definition empty_session : session :=
  {| conversation_history := []; booking_in_progress := None; slots := ∅ |}.

(** The stored slots of the scenario of the specification: a name, a
    malformed email and a service, in a booking that is under way. *)
Definition scenario_session : session :=
  {| conversation_history := [];
     booking_in_progress := Some true;
     slots := <["name" := "Alice"]> (<["email" := "bad@bad"]>
                (<["service" := "Therapy"]> ∅)) |}.

Definition scenario_request : request :=
  {| msg := "my email is alice@mail.com, date 2025-03-10, time 14:30";
     host_url := "http://localhost:8080/" |}.

Definition booking_request : request :=
  {| msg := "I want to book a therapy session";
     host_url := "http://localhost:8080/" |}.

Definition question_request : request :=
  {| msg := "What services do you offer?";
     host_url := "http://localhost:8080/" |}.

Definition complete_extraction : BookingInfo.t :=
  {| BookingInfo.name := "Alice"; BookingInfo.email := "alice@mail.com";
     BookingInfo.service := "Therapy"; BookingInfo.date := "2025-03-10";
     BookingInfo.time := "14:30" |}.

(** A placeholder name and a date that is no date. *)
Definition partial_extraction : BookingInfo.t :=
  {| BookingInfo.name := "Unknown"; BookingInfo.email := "alice@mail.com";
     BookingInfo.service := " Therapy "; BookingInfo.date := "tomorrow";
     BookingInfo.time := "14:30" |}.

(** [s] with its ASCII digits replaced by the fullwidth digits U+FF10..U+FF19 *)
Definition fullwidth (s : string) : Unicode.str :=
  map (fun c => if Py.is_digit c then (Py.code c + 65248)%N else Py.code c)
      (list_ascii_of_string s).

(** An extraction with a letter outside ASCII, blanks, a slash and padding. *)
Definition accented_extraction : BookingInfo.t :=
  {| BookingInfo.name := "Zo" +:+ String "235" " Smith";
     BookingInfo.email := "zoe@mail.com";
     BookingInfo.service := " Art/Play Therapy ";
     BookingInfo.date := "2025-03-10";
     BookingInfo.time := "14:30" |}.

(** An extraction with a placeholder service and a malformed email. *)
Definition extraction_out_of_order : BookingInfo.t :=
  {| BookingInfo.name := "Alice"; BookingInfo.email := "bad@bad";
     BookingInfo.service := "unknown"; BookingInfo.date := "2025-03-10";
     BookingInfo.time := "14:30" |}.

(** ** More of the program *)

(** [logout()]: [session.clear()] *)
Definition logout (s : session) : session * string :=
  (empty_session, "Session cleared!").

(** The sessions the handlers reach from the empty one, by turns of [chat]
    that returned, with any behaviour of the collaborators, and by logouts. *)
Inductive reachable : session -> Prop :=
| reachable_new : reachable empty_session
| reachable_chat booking_chain rag_chain urljoin req s s' reply :
    reachable s ->
    chat booking_chain rag_chain urljoin req s = Some (s', reply) ->
    reachable s'
| reachable_logout s : reachable s -> reachable (logout s).1.

(** ** The vocabulary of the further statements *)

(** The time strings the code accepts. *)
Definition time_accepted (t : string) : Prop :=
  exists H M : string,
    t = H +:+ ":" +:+ M /\ numeral 1 2 H /\ numeral 1 2 M /\
    (Strptime.int H <= 23)%Z /\ (Strptime.int M <= 59)%Z.

Section AcceptedTime.

Variable decimal : N -> option Z.

(** An hour: a decimal digit, ASCII or not, or an ASCII digit and a decimal
    digit, which may be one outside ASCII after [0] or [1] only. *)
Definition hour_numeral (H : Unicode.str) (hour : Z) : Prop :=
  (exists c, H = [c] /\ decimal c = Some hour) \/
  (exists c1 c2 v1 v2,
      H = [c1; c2] /\ ascii_digit c1 v1 /\ decimal c2 = Some v2 /\
      (v1 = 0 \/ v1 = 1 \/ (c2 < 128)%N)%Z /\
      hour = (10 * v1 + v2)%Z).

(** A minute: a decimal digit, or an ASCII digit and a decimal digit. *)
Definition minute_numeral (M : Unicode.str) (minute : Z) : Prop :=
  (exists c, M = [c] /\ decimal c = Some minute) \/
  (exists c1 c2 v1 v2,
      M = [c1; c2] /\ ascii_digit c1 v1 /\ decimal c2 = Some v2 /\
      minute = (10 * v1 + v2)%Z).

(** The time strings the code accepts, among the [str] of any code points. *)
Definition accepted_time (t : Unicode.str) : Prop :=
  exists H M hour minute,
    t = (H ++ Unicode.of_string ":" ++ M)%list /\
    hour_numeral H hour /\ minute_numeral M minute /\
    (hour <= 23)%Z /\ (minute <= 59)%Z.

End AcceptedTime.

(** A history made of pairs: a user turn, then an assistant turn. *)
Fixpoint alternating (history : list turn) : Prop :=
  match history with
  | [] => True
  | u :: a :: rest =>
      role u = "user" /\ role a = "assistant" /\ alternating rest
  | _ => False
  end.

(** The field has a validator and the extracted value fails it. *)
Definition invalid_field (bi : BookingInfo.t) (field : string) : Prop :=
  (field = "date" /\ validate_date (BookingInfo.date bi) = false) \/
  (field = "time" /\ validate_time (BookingInfo.time bi) = false) \/
  (field = "email" /\ is_valid_email (BookingInfo.email bi) = false).

(** No extracted value is a placeholder and the three validators pass. *)
Definition extraction_passes (bi : BookingInfo.t) : Prop :=
  (forall field, In field required_fields ->
      is_placeholder (getattr bi field "") = false) /\
  validate_date (BookingInfo.date bi) = true /\
  validate_time (BookingInfo.time bi) = true /\
  is_valid_email (BookingInfo.email bi) = true.

Definition clean_slot (field value : string) : Prop :=
  In field required_fields /\ Py.strip value = value /\ is_placeholder value = false.

Definition complete_and_valid (s : session) : Prop :=
  (forall field, In field required_fields -> is_Some (slots s !! field)) /\
  validate_date (slot s "date") = true /\
  validate_time (slot s "time") = true /\
  is_valid_email (slot s "email") = true.

(** the characters [quote_plus] writes *)
Definition value_char (c : ascii) : bool :=
  Url.always_safe c || Ascii.eqb c "+" || Ascii.eqb c "%".

(** the characters of a query string *)
Definition query_char (c : ascii) : bool :=
  value_char c || Ascii.eqb c "=" || Ascii.eqb c "&".

Definition hex_value (c : ascii) : N :=
  if Py.is_digit c then (Py.code c - 48)%N else (Py.code c - 55)%N.

(** Reads back the first character of what [quote_plus] wrote, and what
    follows it; used to show that [quote_plus] loses nothing. *)
Definition unquote_char (s : string) : option (ascii * string) :=
  match s with
  | EmptyString => None
  | String "+" r => Some (" "%char, r)
  | String "%" (String h1 (String h2 r)) =>
      let b := (16 * hex_value h1 + hex_value h2)%N in
      if (b <? 128)%N then Some (ascii_of_N b, r)
      else
        match r with
        | String "%" (String h3 (String h4 r')) =>
            let b' := (16 * hex_value h3 + hex_value h4)%N in
            Some (ascii_of_N ((b - 192) * 64 + (b' - 128)), r')
        | _ => None
        end
  | String "%" _ => None
  | String c r => Some (c, r)
  end.

(** ** Further sample inputs *)

(** the date of [complete_extraction] with a blank before it *)
Definition padded_extraction : BookingInfo.t :=
  {| BookingInfo.name := "Alice"; BookingInfo.email := "alice@mail.com";
     BookingInfo.service := "Therapy"; BookingInfo.date := " 2025-03-10";
     BookingInfo.time := "14:30" |}.

(** the first turn of a visitor, when the extractor returns
    [partial_extraction] *)
Definition partial_turn : session * string :=
  let history := [user_turn (msg booking_request)] in
  let reply := follow_up (missing_fields partial_extraction) in
  (save_memory (history ++ [assistant_turn reply])%list
     (set_slots (store_fields partial_extraction ∅) (set_flag true empty_session)),
   reply).

(** the first turn of a visitor, when the extractor returns
    [complete_extraction] *)
Definition complete_turn : session * string :=
  completed sample_urljoin booking_request [user_turn (msg booking_request)]
    complete_extraction (set_flag true empty_session).

(** the first turn of a visitor who asks a question *)
Definition question_turn : session * string :=
  (save_memory [user_turn (msg question_request);
                assistant_turn "We offer therapy and counselling."] empty_session,
   "We offer therapy and counselling.").

(** * Properties *)

(** ** Samples *)

Example validate_date_samples :
  map validate_date
    ["2024-02-29"; "2024-02-30"; "2023-02-29"; "2100-02-29"; "2000-02-29";
     "2024-2-9"; "2024-02- 9"; "0000-01-01"; "0001-01-01"; "2024-13-01";
     "2024-01-321"; "24-01-01"; "2024/01/01"; " 2024-01-01"; ""]
  = [true; false; false; false; true;
     true; true; false; true; false;
     false; false; false; false; false].
Proof. vm_compute. reflexivity. Qed.

Example validate_time_samples :
  map validate_time ["14:30"; "9:5"; "24:00"; "12:60"; "12:345"; "7pm"]
  = [true; true; false; false; false; false].
Proof. vm_compute. reflexivity. Qed.

Example is_valid_email_samples :
  map is_valid_email
    ["alice@mail.com"; "bad@bad"; "a b@c.de"; "a@b.c-d"; "a@b..com"; "@b.c";
     "a@@b.c"; "a@b.c1"]
  = [true; false; false; false; true; false; false; true].
Proof. vm_compute. reflexivity. Qed.


(** ** Strings *)

Lemma string_app_cons c s t : String c s +:+ t = String c (s +:+ t).
Proof. reflexivity. Qed.

Lemma string_app_nil_l s : "" +:+ s = s.
Proof. reflexivity. Qed.

Lemma string_app_nil_r s : s +:+ "" = s.
Proof. induction s as [| c s IH]; [reflexivity |]. now rewrite string_app_cons, IH. Qed.

Lemma string_app_assoc s t u : (s +:+ t) +:+ u = s +:+ t +:+ u.
Proof.
  induction s as [| c s IH]; [reflexivity |]. now rewrite !string_app_cons, IH.
Qed.

Lemma string_length_app s t :
  String.length (s +:+ t) = String.length s + String.length t.
Proof.
  induction s as [| c s IH]; [reflexivity |].
  rewrite string_app_cons. simpl. now rewrite IH.
Qed.

Lemma substring_app u rest : String.substring 0 (String.length u) (u +:+ rest) = u.
Proof.
  induction u as [| c u IH].
  - destruct rest; reflexivity.
  - rewrite string_app_cons. simpl. now rewrite IH.
Qed.

Lemma all_chars_app p s t : all_chars p (s +:+ t) = all_chars p s && all_chars p t.
Proof.
  induction s as [| c s IH]; [reflexivity |].
  rewrite string_app_cons. simpl. now rewrite IH, andb_assoc.
Qed.

Lemma mem_In (x : string) (l : list string) : Py.mem x l = true <-> In x l.
Proof.
  unfold Py.mem. rewrite existsb_exists. split.
  - intros (y & Hy & Heq). apply String.eqb_eq in Heq. now subst.
  - intros H. exists x. split; [assumption | apply String.eqb_refl].
Qed.

Lemma lower_char_not_upper (c : ascii) : Py.is_upper (Py.lower_char c) = false.
Proof. destruct c as [[] [] [] [] [] [] [] []]; reflexivity. Qed.

Lemma lower_all_lower (s : string) :
  all_chars (fun c => negb (Py.is_upper c)) (Py.lower s) = true.
Proof.
  induction s as [| c s IH]; simpl; [reflexivity |].
  now rewrite lower_char_not_upper, IH.
Qed.

(** ** Placeholder detection *)

Lemma is_placeholder_iff (raw : string) :
  is_placeholder raw = true <-> In (Py.lower (Py.strip raw)) bad_values.
Proof. apply mem_In. Qed.

(** An entry of [bad_values] that has a capital letter is matched by no
    value: the value is lower-cased before the test. *)
Lemma capital_entry_unreachable (raw entry : string) :
  all_chars (fun c => negb (Py.is_upper c)) entry = false ->
  Py.lower (Py.strip raw) <> entry.
Proof.
  intros Hcap Heq. rewrite <- Heq, lower_all_lower in Hcap. discriminate.
Qed.

(** C1. The placeholder detector is [value.strip().lower() in bad_values];
    the two entries of [bad_values] written with a capital [Y] are members of
    the list, yet the detector reports each of them as good, and no value at
    all is ever matched against them. *)
Theorem placeholder_capital_entries_missed :
  In "You didn't mention your name" bad_values /\
  In "You didn't mention your email" bad_values /\
  is_placeholder "You didn't mention your name" = false /\
  is_placeholder "You didn't mention your email" = false /\
  (forall raw,
      Py.lower (Py.strip raw) <> "You didn't mention your name" /\
      Py.lower (Py.strip raw) <> "You didn't mention your email").
Proof.
  split; [simpl; tauto |]. split; [simpl; tauto |].
  split; [reflexivity |]. split; [reflexivity |].
  intros raw. split; apply capital_entry_unreachable; reflexivity.
Qed.

(** ** The matcher against the meaning of the patterns

    Whatever [match_re] returns comes from a split of the subject into a
    part in [lang] and a rest handed to the continuation ([match_sound]);
    and where such a split exists and the continuation accepts every rest,
    [match_re] returns ([match_complete]). *)

Section Sound.
Context {A : Type}.
Import Re.

Lemma plus_match_sound p s : forall pos (k : nat -> string -> option A) x,
  plus_match p pos s k = Some x ->
  exists u rest, s = u +:+ rest /\ u <> "" /\ all_chars p u = true /\
                 k (pos + String.length u) rest = Some x.
Proof.
  induction s as [| c s IH]; intros pos k x H; simpl in H; [discriminate |].
  destruct (p c) eqn:Hc; [| discriminate].
  destruct (plus_match p (S pos) s k) as [y |] eqn:Hin.
  - destruct (IH _ _ _ Hin) as (u & rest & -> & _ & Hall & Hk).
    exists (String c u), rest. rewrite string_app_cons. simpl. rewrite Hc, Hall.
    repeat split; [discriminate |]. injection H as <-.
    rewrite Nat.add_succ_r. exact Hk.
  - exists (String c ""), s. simpl. rewrite Hc.
    repeat split; [discriminate |]. rewrite Nat.add_1_r. exact H.
Qed.

Lemma match_sound r : forall pos s g (k : nat -> string -> groups -> option A) x,
  match_re r pos s g k = Some x ->
  exists u rest g', s = u +:+ rest /\ Re.lang r pos u rest g g' /\
                    k (pos + String.length u) rest g' = Some x.
Proof.
  induction r as [p | p | r1 IH1 r2 IH2 | r1 IH1 r2 IH2 | n r1 IH1 | |];
    intros pos s g k x H; simpl in H.
  - destruct s as [| c s]; [discriminate |]. destruct (p c) eqn:Hc; [| discriminate].
    exists (String c ""), s, g. simpl. rewrite Nat.add_1_r. eauto 10.
  - apply plus_match_sound in H as (u & rest & -> & Hne & Hall & Hk).
    exists u, rest, g. simpl. auto.
  - apply IH1 in H as (u1 & rest1 & g1 & -> & L1 & H).
    apply IH2 in H as (u2 & rest & g' & -> & L2 & H).
    exists (u1 +:+ u2), rest, g'. rewrite string_app_assoc, string_length_app, Nat.add_assoc.
    split; [reflexivity |]. split; [| assumption]. simpl. eauto 10.
  - destruct (match_re r1 pos s g k) as [y |] eqn:H1.
    + apply IH1 in H1 as (u & rest & g' & -> & L & Hk).
      exists u, rest, g'. simpl. split; [reflexivity |]. split; [auto | congruence].
    + apply IH2 in H as (u & rest & g' & -> & L & Hk).
      exists u, rest, g'. simpl. auto.
  - apply IH1 in H as (u & rest & g1 & -> & L & Hk).
    replace (pos + String.length u - pos) with (String.length u) in Hk by lia.
    rewrite substring_app in Hk.
    exists u, rest, ((n, u) :: g1). simpl. eauto 10.
  - destruct (Nat.eqb pos 0) eqn:Hp; [| discriminate]. apply Nat.eqb_eq in Hp.
    exists "", s, g. simpl. rewrite Nat.add_0_r. auto.
  - destruct (at_end s) eqn:He; [| discriminate].
    exists "", s, g. simpl. rewrite Nat.add_0_r. auto.
Qed.

Lemma plus_match_complete p u : forall rest pos (k : nat -> string -> option A),
  u <> "" -> all_chars p u = true ->
  is_Some (k (pos + String.length u) rest) ->
  is_Some (plus_match p pos (u +:+ rest) k).
Proof.
  induction u as [| c u IH]; intros rest pos k Hne Hall Hk; [congruence |].
  simpl in Hall. apply andb_true_iff in Hall as [Hc Hall].
  rewrite string_app_cons. simpl. rewrite Hc.
  destruct u as [| c' u].
  - change (String.length (String c "")) with 1 in Hk. rewrite Nat.add_1_r in Hk.
    rewrite string_app_nil_l.
    destruct (plus_match p (S pos) rest k); [eauto | assumption].
  - assert (Hin : is_Some (plus_match p (S pos) (String c' u +:+ rest) k)).
    { apply IH; [discriminate | assumption |].
      change (String.length (String c (String c' u))) with (S (String.length (String c' u))) in Hk.
      now rewrite Nat.add_succ_r in Hk. }
    destruct Hin as [y ->]. eauto.
Qed.

End Sound.

Lemma lang_groups r : forall pos u rest g g' g2,
  Re.lang r pos u rest g g' -> exists g2', Re.lang r pos u rest g2 g2'.
Proof.
  induction r as [p | p | r1 IH1 r2 IH2 | r1 IH1 r2 IH2 | n r1 IH1 | |];
    intros pos u rest g g' g2 H; simpl in *.
  - destruct H as (c & -> & Hc & _). eauto 10.
  - destruct H as (Hne & Hall & _). eauto.
  - destruct H as (u1 & u2 & g1 & -> & L1 & L2).
    destruct (IH1 _ _ _ _ _ g2 L1) as (h1 & L1').
    destruct (IH2 _ _ _ _ _ h1 L2) as (h2 & L2'). eauto 10.
  - destruct H as [L | L].
    + destruct (IH1 _ _ _ _ _ g2 L). eauto.
    + destruct (IH2 _ _ _ _ _ g2 L). eauto.
  - destruct H as (g1 & L & _). destruct (IH1 _ _ _ _ _ g2 L). eauto.
  - destruct H as (-> & -> & _). eauto.
  - destruct H as (-> & He & _). eauto.
Qed.

Lemma match_complete {A} r : forall pos u rest g g' (k : nat -> string -> Re.groups -> option A),
  Re.lang r pos u rest g g' ->
  (forall h, is_Some (k (pos + String.length u) rest h)) ->
  is_Some (Re.match_re r pos (u +:+ rest) g k).
Proof.
  induction r as [p | p | r1 IH1 r2 IH2 | r1 IH1 r2 IH2 | n r1 IH1 | |];
    intros pos u rest g g' k H Hk; simpl in *.
  - destruct H as (c & -> & Hc & _). rewrite string_app_cons. simpl. rewrite Hc.
    specialize (Hk g). simpl in Hk. now rewrite Nat.add_1_r in Hk.
  - destruct H as (Hne & Hall & _). apply plus_match_complete; auto.
  - destruct H as (u1 & u2 & g1 & -> & L1 & L2). rewrite string_app_assoc.
    eapply IH1; [exact L1 |]. intros h.
    destruct (lang_groups _ _ _ _ _ _ h L2) as (h' & L2').
    eapply IH2; [exact L2' |]. intros h2.
    specialize (Hk h2). now rewrite string_length_app, Nat.add_assoc in Hk.
  - destruct (Re.match_re r1 pos (u +:+ rest) g k) eqn:H1; [eauto |].
    destruct H as [L | L].
    + destruct (IH1 _ _ _ _ _ k L Hk) as [y Hy]. congruence.
    + eapply IH2; eauto.
  - destruct H as (g1 & L & _). eapply IH1; [exact L |]. intros h. apply Hk.
  - destruct H as (-> & -> & _). rewrite string_app_nil_l. exact (Hk g).
  - destruct H as (-> & He & _). rewrite string_app_nil_l, He.
    specialize (Hk g). now rewrite Nat.add_0_r in Hk.
Qed.

(** ** [is_valid_email] *)

Lemma email_lang pos u rest g g' :
  Re.lang email_pattern pos u rest g g' <->
  pos = 0 /\ g' = g /\ Re.at_end rest = true /\ email_shape alnum u.
Proof.
  unfold email_pattern, email_shape. cbn [Re.lang Re.seqs Re.chr]. split.
  - intros (u0 & v0 & g0 & -> & (-> & -> & ->) &
            l & v1 & g1 & -> & (Hl & Hal & ->) &
            a & v2 & g2 & -> & (ca & -> & Hca & ->) &
            d & v3 & g3 & -> & (Hd & Had & ->) &
            b & v4 & g4 & -> & (cb & -> & Hcb & ->) &
            t & v5 & g5 & -> & (Ht & Hat & ->) & (-> & He & ->)).
    apply Ascii.eqb_eq in Hca, Hcb. subst ca cb.
    repeat split; try assumption.
    exists l, d, t. rewrite string_app_nil_l, string_app_nil_r. auto 10.
  - intros (-> & -> & He & l & d & t & -> & Hl & Hd & Ht & Hal & Had & Hat).
    exists "", (l +:+ "@" +:+ d +:+ "." +:+ t), g. split; [reflexivity |].
    split; [auto |].
    exists l, ("@" +:+ d +:+ "." +:+ t), g. split; [reflexivity |]. split; [auto |].
    exists "@", (d +:+ "." +:+ t), g. split; [reflexivity |].
    split; [exists "@"%char; auto |].
    exists d, ("." +:+ t), g. split; [reflexivity |]. split; [auto |].
    exists ".", t, g. split; [reflexivity |]. split; [exists "."%char; auto |].
    exists t, "", g. rewrite ?string_app_nil_r, ?string_app_nil_l. auto 10.
Qed.

Lemma is_valid_email_iff s :
  is_valid_email s = true <->
  exists body rest, s = body +:+ rest /\ Re.at_end rest = true /\ email_shape alnum body.
Proof.
  unfold is_valid_email, Re.rmatch. split.
  - destruct (Re.match_re _ _ _ _ _) as [x |] eqn:H; [| discriminate]. intros _.
    apply match_sound in H as (u & rest & g' & -> & L & _).
    apply email_lang in L as (_ & _ & He & Hs). eauto.
  - intros (body & rest & -> & He & Hs).
    assert (L : Re.lang email_pattern 0 body rest [] []) by (apply email_lang; auto).
    destruct (match_complete email_pattern 0 body rest [] []
                Re.final L) as [x ->]; eauto.
Qed.

Lemma at_end_cases rest : Re.at_end rest = true <-> rest = "" \/ rest = newline.
Proof.
  destruct rest as [| c [| c' r]]; simpl; split; auto; try discriminate.
  - intros H. right. unfold newline. f_equal.
    apply N.eqb_eq in H. unfold Py.code in H.
    rewrite <- (ascii_N_embedding c), H. reflexivity.
  - intros [H | H]; [discriminate |]. inversion H. reflexivity.
  - intros [H | H]; discriminate.
Qed.

Lemma ends_with_newline_app body : ends_with_newline (body +:+ newline) = true.
Proof.
  induction body as [| c body IH]; [reflexivity |].
  rewrite string_app_cons. simpl. rewrite IH.
  destruct (body +:+ newline) eqn:E; [| reflexivity].
  destruct body; discriminate.
Qed.

(** C4, amended. For a string that does not end in a line feed,
    [is_valid_email] holds exactly when the string reads [local@domain.tld]
    with three non-empty segments, no [@] and no whitespace in any of them,
    and a last segment made of ASCII letters and digits only. *)
Theorem is_valid_email_shape (s : string) :
  ends_with_newline s = false ->
  (is_valid_email s = true <-> email_shape alnum s).
Proof.
  intros Hnl. rewrite is_valid_email_iff. split.
  - intros (body & rest & -> & He & Hs).
    apply at_end_cases in He as [-> | ->].
    + now rewrite string_app_nil_r.
    + now rewrite ends_with_newline_app in Hnl.
  - intros Hs. exists s, "". rewrite string_app_nil_r. auto.
Qed.

Lemma is_valid_email_shape_witness :
  ends_with_newline "alice@mail.com" = false /\
  (is_valid_email "alice@mail.com" = true <-> email_shape alnum "alice@mail.com").
Proof.
  split; [reflexivity |].
  apply (is_valid_email_shape "alice@mail.com"). reflexivity.
Defined.

(** C4, as stated, fails: an address whose last segment has a hyphen has the
    shape the claim describes and is rejected. *)
Lemma email_counterexample :
  email_shape not_at_space "user@example.xn--p1ai" /\
  ends_with_newline "user@example.xn--p1ai" = false /\
  is_valid_email "user@example.xn--p1ai" = false.
Proof.
  split; [| split; reflexivity].
  exists "user", "example", "xn--p1ai". repeat split; discriminate.
Qed.

(** The pattern ends in [$], so a line feed after the address is let through. *)
Example is_valid_email_trailing_newline :
  is_valid_email ("alice@mail.com" +:+ newline) = true.
Proof. reflexivity. Qed.

(** ** [validate_date] *)

Lemma compile_date : Strptime.compile "%Y-%m-%d" = Some date_regex.
Proof. reflexivity. Qed.

Lemma range_digit lo hi c :
  Py.between lo hi c = true -> ((48 <=? lo) && (hi <=? 57))%N = true ->
  Py.is_digit c = true.
Proof.
  unfold Py.is_digit, Py.between.
  rewrite !andb_true_iff, !N.leb_le. lia.
Qed.

(** what a class test says of a character: which one it is, or that it is
    a digit *)
Ltac norm_chars :=
  repeat match goal with
    | H : Ascii.eqb _ ?c = true |- _ => apply Ascii.eqb_eq in H; subst c
    | H : Py.between _ _ ?c = true |- _ =>
        apply range_digit in H; [| reflexivity]
    end.

Lemma check_date_fields_iff y m d :
  Strptime.check_date_fields y m d = true <->
  (1 <= y <= 9999 /\ 1 <= m <= 12 /\ 1 <= d <= Strptime.days_in_month y m)%Z.
Proof.
  unfold Strptime.check_date_fields. rewrite !andb_true_iff, !Z.leb_le. lia.
Qed.

(** take a hypothesis [lang r ...] of a pattern without repetition apart *)
Ltac break_lang :=
  repeat match goal with
    | H : exists _, _ |- _ => destruct H as [? H]
    | H : _ /\ _ |- _ => destruct H as [? ?]
    | H : _ \/ _ |- _ => destruct H as [H | H]
    end; subst.

Ltac solve_digits :=
  cbn [all_chars];
  repeat match goal with
    | H : Py.is_digit ?c = true |- context [Py.is_digit ?c] => rewrite H
    end;
  reflexivity.

(** What is accepted has the shape: by soundness of the matcher, one case for
    each pair of alternatives of the month and of the day. *)
Lemma validate_date_shape d : validate_date d = true -> date_shape d.
Proof.
  unfold validate_date, Strptime.strptime. rewrite compile_date. unfold Re.rmatch.
  destruct (Re.match_re _ _ _ _ _) as [[e found] |] eqn:H; [| discriminate].
  apply match_sound in H as (u & rest & g' & -> & L & Hk).
  injection Hk as <- <-.
  rewrite string_length_app.
  destruct rest as [| c rest]; cycle 1.
  { replace (_ =? _)%nat with false; [discriminate |].
    symmetry. apply Nat.eqb_neq. simpl. lia. }
  rewrite Nat.add_0_r, Nat.eqb_refl. cbn [negb].
  unfold date_regex in L. cbn [Re.lang Re.chr Re.range Re.digit] in L.
  break_lang.
  all: norm_chars.
  all: cbv [Strptime.field Re.group String.eqb Ascii.eqb Bool.eqb].
  all: destruct (Strptime.check_date_fields _ _ _) eqn:Hc; [| discriminate].
  all: apply check_date_fields_iff in Hc as (Hy & Hm & Hd); intros _.
  all: rewrite string_app_nil_r.
  all: match goal with
       | Hd : (_ <= Strptime.int ?D <= Strptime.days_in_month (Strptime.int ?Y) (Strptime.int ?M))%Z |- _ =>
           exists Y, M, D
       end.
  all: (split; [reflexivity |]).
  all: unfold numeral, blank_digit; cbv [String.append] in *.
  all: repeat match goal with |- _ /\ _ => split end.
  all: try assumption; try lia; try solve_digits; try (cbn [String.length]; lia).
  all: first [ left; split; [solve_digits | cbn [String.length]; lia]
             | right; eexists; split; [reflexivity | assumption] ].
Qed.

Lemma digit_cases c :
  Py.is_digit c = true -> In c ["0"; "1"; "2"; "3"; "4"; "5"; "6"; "7"; "8"; "9"]%char.
Proof.
  destruct c as [[] [] [] [] [] [] [] []]; intros H;
    first [discriminate H | simpl; tauto].
Qed.

Lemma numeral_1_2 s :
  numeral 1 2 s ->
  (exists c, s = String c "" /\ Py.is_digit c = true) \/
  (exists c c', s = String c (String c' "") /\
                Py.is_digit c = true /\ Py.is_digit c' = true).
Proof.
  intros [Hall Hlen]. destruct s as [| c [| c' [| c'' s]]]; simpl in *; try lia.
  - left. exists c. rewrite !andb_true_iff in Hall. tauto.
  - right. exists c, c'. rewrite !andb_true_iff in Hall. tauto.
Qed.

Lemma numeral_4 s :
  numeral 4 4 s ->
  exists c1 c2 c3 c4,
    s = String c1 (String c2 (String c3 (String c4 ""))) /\
    Py.is_digit c1 = true /\ Py.is_digit c2 = true /\
    Py.is_digit c3 = true /\ Py.is_digit c4 = true.
Proof.
  intros [Hall Hlen].
  destruct s as [| c1 [| c2 [| c3 [| c4 [| c5 s]]]]]; simpl in *; try lia.
  exists c1, c2, c3, c4. rewrite !andb_true_iff in Hall. tauto.
Qed.

(** What has the shape is accepted: the run of the matcher, one directive at
    a time. The first alternative that matches is the one that takes the
    whole numeral. *)
Section DateSteps.
Import Re.

Lemma step_year {A} R c1 c2 c3 c4 rest (k : nat -> string -> groups -> option A) :
  Py.is_digit c1 = true -> Py.is_digit c2 = true ->
  Py.is_digit c3 = true -> Py.is_digit c4 = true ->
  match_re (Seq (Group "Y" (Seq digit (Seq digit (Seq digit digit)))) R) 0
    (String c1 (String c2 (String c3 (String c4 rest)))) [] k
  = match_re R 4 rest [("Y", String c1 (String c2 (String c3 (String c4 ""))))] k.
Proof.
  intros H1 H2 H3 H4. cbn [match_re digit]. rewrite H1, H2, H3, H4.
  destruct rest; reflexivity.
Qed.

Lemma step_chr {A} R c pos rest g (k : nat -> string -> groups -> option A) :
  match_re (Seq (chr c) R) pos (String c rest) g k = match_re R (S pos) rest g k.
Proof. cbn [match_re chr]. now rewrite Ascii.eqb_refl. Qed.

Lemma step_month {A} R M rest g (k : nat -> string -> groups -> option A) :
  numeral 1 2 M -> (1 <= Strptime.int M <= 12)%Z ->
  match_re
    (Seq (Group "m" (Alt (Seq (chr "1") (range "0" "2"))
                         (Alt (Seq (chr "0") (range "1" "9")) (range "1" "9"))))
         (Seq (chr "-") R))
    5 (M +:+ String "-" rest) g k
  = match_re R (6 + String.length M) rest (("m", M) :: g) k.
Proof.
  intros HM Hv.
  destruct (numeral_1_2 _ HM) as [(c & -> & Hc) | (c & c' & -> & Hc & Hc')].
  - apply digit_cases in Hc. simpl in Hc.
    decompose [or] Hc; try contradiction; subst c;
      vm_compute in Hv; try (exfalso; intuition congruence);
      rewrite ?string_app_cons, ?string_app_nil_l; destruct rest; cbn; reflexivity.
  - apply digit_cases in Hc, Hc'. simpl in Hc, Hc'.
    decompose [or] Hc; try contradiction; subst c;
      decompose [or] Hc'; try contradiction; subst c';
      vm_compute in Hv; try (exfalso; intuition congruence);
      rewrite ?string_app_cons, ?string_app_nil_l; destruct rest; cbn;
      destruct (match_re R _ _ _ _); reflexivity.
Qed.
Lemma in_range_iff lo hi v : in_range lo hi v = true <-> (lo <= v <= hi)%Z.
Proof. unfold in_range. rewrite andb_true_iff, !Z.leb_le. tauto. Qed.

Lemma step_day D pos g :
  numeral 1 2 D \/ blank_digit D -> (1 <= Strptime.int D <= 31)%Z ->
  pos = 7 \/ pos = 8 ->
  match_re
    (Group "d" (Alt (Seq (chr "3") (range "0" "1"))
                 (Alt (Seq (range "1" "2") digit)
                    (Alt (Seq (chr "0") (range "1" "9"))
                       (Alt (range "1" "9") (Seq (chr " ") (range "1" "9")))))))
    pos D g final
  = Some (pos + String.length D, ("d", D) :: g).
Proof.
  intros HD Hv Hpos. apply in_range_iff in Hv.
  destruct HD as [HD | (c & -> & Hc)].
  - destruct (numeral_1_2 _ HD) as [(c & -> & Hc) | (c & c' & -> & Hc & Hc')].
    + apply digit_cases in Hc. simpl in Hc.
      decompose [or] Hc; try contradiction; subst c;
        vm_compute in Hv; try discriminate Hv;
        destruct Hpos as [-> | ->]; reflexivity.
    + apply digit_cases in Hc, Hc'. simpl in Hc, Hc'.
      decompose [or] Hc; try contradiction; subst c;
        decompose [or] Hc'; try contradiction; subst c';
        vm_compute in Hv; try discriminate Hv;
        destruct Hpos as [-> | ->]; reflexivity.
  - apply digit_cases in Hc. simpl in Hc.
    decompose [or] Hc; try contradiction; subst c;
      vm_compute in Hv; try discriminate Hv;
      destruct Hpos as [-> | ->]; reflexivity.
Qed.

End DateSteps.

Lemma digit_not_space c : Py.is_digit c = true -> Py.is_space c = false.
Proof. destruct c as [[] [] [] [] [] [] [] []]; intros H; first [discriminate H | reflexivity]. Qed.

Lemma digit_value c : Py.is_digit c = true -> (0 <= Z.of_N (Py.code c) - 48 <= 9)%Z.
Proof.
  unfold Py.is_digit, Py.between. rewrite andb_true_iff, !N.leb_le. lia.
Qed.

Lemma int_year_bound Y : numeral 4 4 Y -> (Strptime.int Y <= 9999)%Z.
Proof.
  intros H. destruct (numeral_4 _ H) as (c1 & c2 & c3 & c4 & -> & H1 & H2 & H3 & H4).
  unfold Strptime.int, Py.strip. cbn [Py.lstrip].
  rewrite (digit_not_space _ H1). cbn [Py.rstrip].
  rewrite (digit_not_space _ H4). cbn [Strptime.digits_value].
  apply digit_value in H1, H2, H3, H4. lia.
Qed.

Lemma days_in_month_le y m : (Strptime.days_in_month y m <= 31)%Z.
Proof.
  unfold Strptime.days_in_month.
  destruct (_ && _); [lia |].
  destruct (Z.to_nat m) as [| [| [| [| [| [| [| [| [| [| [| [| [| [| n]]]]]]]]]]]]]];
    simpl; lia.
Qed.

Lemma date_shape_valid d : date_shape d -> validate_date d = true.
Proof.
  intros (Y & M & D & -> & HY & HM & HD & Hy & Hm & Hd).
  pose proof (int_year_bound _ HY) as Hy'.
  pose proof (days_in_month_le (Strptime.int Y) (Strptime.int M)) as Hdim.
  unfold validate_date, Strptime.strptime. rewrite compile_date.
  unfold Re.rmatch, date_regex.
  destruct (numeral_4 _ HY) as (c1 & c2 & c3 & c4 & EY & H1 & H2 & H3 & H4).
  subst Y. rewrite !string_app_cons, !string_app_nil_l.
  rewrite step_year by assumption. rewrite step_chr.
  rewrite step_month by assumption.
  rewrite step_day; [| assumption | lia |]; cycle 1.
  { destruct HM as [_ HM]. destruct M as [| ? [| ? [| ? ?]]]; simpl in *; lia. }
  cbn [String.length]. rewrite !string_length_app. cbn [String.length].
  replace (_ =? _)%nat with true by (symmetry; apply Nat.eqb_eq; lia).
  cbv [negb Strptime.field Re.group String.eqb Ascii.eqb Bool.eqb].
  replace (Strptime.check_date_fields _ _ _) with true; [reflexivity |].
  symmetry. apply check_date_fields_iff. lia.
Qed.

(** C3, as stated, fails: a month and a day written without their leading
    zero are accepted. *)
Lemma validate_date_counterexample :
  validate_date "2024-2-9" = true /\
  spec_validate_date "2024-2-9" = false /\
  ~ (forall d, validate_date d = true <-> spec_validate_date d = true).
Proof.
  split; [vm_compute; reflexivity |]. split; [reflexivity |].
  intros H. specialize (H "2024-2-9"). destruct H as [H _].
  assert (E : validate_date "2024-2-9" = true) by (vm_compute; reflexivity).
  apply H in E. discriminate E.
Qed.

(** ** [strip] on what the validators accept *)

Lemma app_not_nil s c : s +:+ String c "" <> "".
Proof. destruct s; discriminate. Qed.

Lemma lstrip_first c s : Py.is_space c = false -> Py.lstrip (String c s) = String c s.
Proof. intros H. simpl. now rewrite H. Qed.

Lemma rstrip_last s c :
  Py.is_space c = false -> Py.rstrip (s +:+ String c "") = s +:+ String c "".
Proof.
  intros Hc. induction s as [| a s IH].
  - simpl. now rewrite Hc.
  - rewrite string_app_cons. cbn [Py.rstrip]. rewrite IH.
    destruct (s +:+ String c "") eqn:E; [| reflexivity].
    now apply app_not_nil in E.
Qed.

Lemma strip_edges c x y c' :
  String c x = y +:+ String c' "" ->
  Py.is_space c = false -> Py.is_space c' = false ->
  Py.strip (String c x) = String c x.
Proof.
  intros E Hc Hc'. unfold Py.strip. rewrite lstrip_first by assumption.
  rewrite E. now apply rstrip_last.
Qed.

Lemma lstrip_head s :
  Py.lstrip s = "" \/ exists c s', Py.lstrip s = String c s' /\ Py.is_space c = false.
Proof.
  induction s as [| c s IH]; [now left |]. simpl.
  destruct (Py.is_space c) eqn:Hc; [exact IH | right; eauto].
Qed.

Lemma rstrip_tail s :
  Py.rstrip s = "" \/
  exists y c, Py.rstrip s = y +:+ String c "" /\ Py.is_space c = false.
Proof.
  induction s as [| a s IH]; [now left |]. cbn [Py.rstrip].
  destruct IH as [-> | (y & c & -> & Hc)].
  - destruct (Py.is_space a) eqn:Ha; [now left |].
    right. exists "", a. auto.
  - right. exists (String a y), c. split; [| assumption].
    destruct (y +:+ String c "") eqn:E; [now apply app_not_nil in E |].
    now rewrite string_app_cons, E.
Qed.

Lemma rstrip_head c s :
  Py.is_space c = false -> exists r, Py.rstrip (String c s) = String c r.
Proof.
  intros Hc. cbn [Py.rstrip]. destruct (Py.rstrip s); [rewrite Hc |]; eauto.
Qed.

Lemma strip_idem s : Py.strip (Py.strip s) = Py.strip s.
Proof.
  unfold Py.strip at 2 3.
  destruct (lstrip_head s) as [-> | (c & s' & -> & Hc)]; [reflexivity |].
  destruct (rstrip_head c s' Hc) as [r Hr].
  destruct (rstrip_tail (String c s')) as [E | (y & c' & E & Hc')]; [congruence |].
  rewrite Hr. rewrite Hr in E. eapply strip_edges; eauto.
Qed.

Lemma is_placeholder_strip v : is_placeholder (Py.strip v) = is_placeholder v.
Proof. unfold is_placeholder. now rewrite strip_idem. Qed.

Lemma numeral_first lo hi s :
  numeral (S lo) hi s -> exists c s', s = String c s' /\ Py.is_digit c = true.
Proof.
  intros [Hall Hlen]. destruct s as [| c s]; simpl in *; [lia |].
  apply andb_true_iff in Hall. exists c, s. tauto.
Qed.

Lemma all_chars_last p s :
  s <> "" -> all_chars p s = true ->
  exists y c, s = y +:+ String c "" /\ p c = true.
Proof.
  induction s as [| a s IH]; [congruence |]. intros _ Hall. simpl in Hall.
  apply andb_true_iff in Hall as [Ha Hall].
  destruct s as [| b s].
  - exists "", a. auto.
  - destruct IH as (y & c & E & Hc); [discriminate | assumption |].
    exists (String a y), c. rewrite string_app_cons, <- E. auto.
Qed.

Lemma numeral_last lo hi s :
  numeral (S lo) hi s -> exists y c, s = y +:+ String c "" /\ Py.is_digit c = true.
Proof.
  intros [Hall Hlen]. apply all_chars_last; [| assumption].
  destruct s; simpl in *; [lia | discriminate].
Qed.

Lemma validate_date_strip d : validate_date d = true -> Py.strip d = d.
Proof.
  intros H. apply validate_date_shape in H as (Y & M & D & -> & HY & HM & HD & _).
  destruct (numeral_first _ _ _ HY) as (c & Y' & -> & Hc).
  assert (exists y c', D = y +:+ String c' "" /\ Py.is_digit c' = true)
    as (y & c' & -> & Hc').
  { destruct HD as [HD | (c' & -> & Hc')]; [eapply numeral_last; eauto |].
    exists " ", c'. auto. }
  rewrite string_app_cons.
  apply (strip_edges c _ (String c Y' +:+ "-" +:+ M +:+ "-" +:+ y) c').
  - rewrite !string_app_assoc, !string_app_cons. reflexivity.
  - now apply digit_not_space.
  - now apply digit_not_space.
Qed.

(** [validate_time]: what is accepted starts and ends with a digit *)
Lemma compile_time : Strptime.compile "%H:%M" = Some time_regex.
Proof. reflexivity. Qed.

Lemma validate_time_shape t : validate_time t = true -> time_shape t.
Proof.
  unfold validate_time, Strptime.strptime. rewrite compile_time. unfold Re.rmatch.
  destruct (Re.match_re _ _ _ _ _) as [[e found] |] eqn:H; [| discriminate].
  apply match_sound in H as (u & rest & g' & -> & L & Hk).
  injection Hk as <- <-.
  rewrite string_length_app.
  destruct rest as [| c rest]; cycle 1.
  { replace (_ =? _)%nat with false; [discriminate |].
    symmetry. apply Nat.eqb_neq. simpl. lia. }
  intros _. rewrite string_app_nil_r.
  unfold time_regex in L. cbn [Re.lang Re.chr Re.range Re.digit] in L.
  break_lang.
  all: norm_chars.
  all: match goal with
       | |- time_shape ((?H +:+ ?H') +:+ ?C +:+ ?M) => exists (H +:+ H'), M
       | |- time_shape (?H +:+ ?C +:+ ?M) => exists H, M
       end.
  all: unfold numeral; cbv [String.append].
  all: repeat match goal with |- _ /\ _ => split end.
  all: try reflexivity; try solve_digits; try (cbn [String.length]; lia).
Qed.

Lemma validate_time_strip t : validate_time t = true -> Py.strip t = t.
Proof.
  intros H. apply validate_time_shape in H as (H & M & -> & HH & HM).
  destruct (numeral_first _ _ _ HH) as (c & H' & -> & Hc).
  destruct (numeral_last _ _ _ HM) as (y & c' & -> & Hc').
  rewrite string_app_cons.
  apply (strip_edges c _ (String c H' +:+ ":" +:+ y) c').
  - rewrite !string_app_assoc, !string_app_cons. reflexivity.
  - now apply digit_not_space.
  - now apply digit_not_space.
Qed.

Lemma all_chars_impl (p q : ascii -> bool) s :
  (forall c, p c = true -> q c = true) -> all_chars p s = true -> all_chars q s = true.
Proof.
  intros Hpq. induction s as [| c s IH]; [reflexivity |]. simpl.
  rewrite !andb_true_iff. intros [H1 H2]. auto.
Qed.

Lemma not_at_space_no_space c : not_at_space c = true -> no_space c = true.
Proof. unfold not_at_space, no_space. rewrite andb_true_iff. tauto. Qed.

Lemma alnum_no_space c : alnum c = true -> no_space c = true.
Proof. destruct c as [[] [] [] [] [] [] [] []]; intros H; first [discriminate H | reflexivity]. Qed.

Lemma email_shape_no_space body :
  email_shape alnum body -> body <> "" /\ all_chars no_space body = true.
Proof.
  intros (l & d & t & -> & Hl & Hd & Ht & Hal & Had & Hat). split.
  - destruct l; [congruence | discriminate].
  - rewrite !all_chars_app.
    rewrite (all_chars_impl _ _ _ not_at_space_no_space Hal).
    rewrite (all_chars_impl _ _ _ not_at_space_no_space Had).
    rewrite (all_chars_impl _ _ _ alnum_no_space Hat). reflexivity.
Qed.

Lemma strip_no_space s rest :
  s <> "" -> all_chars no_space s = true -> Re.at_end rest = true ->
  Py.strip (s +:+ rest) = s.
Proof.
  intros Hne Hall Hrest.
  destruct (all_chars_last _ _ Hne Hall) as (y & c' & E & Hc').
  destruct s as [| c x]; [congruence |].
  simpl in Hall. apply andb_true_iff in Hall as [Hc _].
  unfold no_space in Hc, Hc'. apply negb_true_iff in Hc, Hc'.
  unfold Py.strip. rewrite string_app_cons, lstrip_first by assumption.
  rewrite <- string_app_cons.
  apply at_end_cases in Hrest as [-> | ->].
  - rewrite string_app_nil_r, E. now apply rstrip_last.
  - rewrite E. clear E Hne x Hc. induction y as [| a y IH].
    + simpl. now rewrite Hc'.
    + rewrite !string_app_cons. cbn [Py.rstrip]. rewrite IH.
      destruct (y +:+ String c' "") eqn:E; [now apply app_not_nil in E | reflexivity].
Qed.

Lemma is_valid_email_strip e :
  is_valid_email e = true -> is_valid_email (Py.strip e) = true.
Proof.
  intros H. apply is_valid_email_iff in H as (body & rest & -> & He & Hs).
  destruct (email_shape_no_space _ Hs) as [Hne Hall].
  rewrite strip_no_space by assumption.
  apply is_valid_email_iff. exists body, "". rewrite string_app_nil_r. auto.
Qed.

(** ** [validate_time] on the alphabet of the handler *)

Lemma int_1 c :
  Py.is_digit c = true ->
  Strptime.int (String c "") = (Z.of_N (Py.code c) - 48)%Z.
Proof.
  intros H. unfold Strptime.int, Py.strip. cbn [Py.lstrip].
  rewrite (digit_not_space _ H). cbn [Py.rstrip]. rewrite (digit_not_space _ H).
  cbn [Strptime.digits_value]. lia.
Qed.

Lemma int_2 c c' :
  Py.is_digit c = true -> Py.is_digit c' = true ->
  Strptime.int (String c (String c' ""))
  = (10 * (Z.of_N (Py.code c) - 48) + (Z.of_N (Py.code c') - 48))%Z.
Proof.
  intros H H'. unfold Strptime.int, Py.strip. cbn [Py.lstrip].
  rewrite (digit_not_space _ H). cbn [Py.rstrip]. rewrite (digit_not_space _ H').
  cbn [Strptime.digits_value]. lia.
Qed.

Lemma between_bounds lo hi c :
  Py.between lo hi c = true -> (Z.of_N lo <= Z.of_N (Py.code c) <= Z.of_N hi)%Z.
Proof. unfold Py.between. rewrite andb_true_iff, !N.leb_le. lia. Qed.

Lemma validate_time_accepted t : validate_time t = true -> time_accepted t.
Proof.
  unfold validate_time, Strptime.strptime. rewrite compile_time. unfold Re.rmatch.
  destruct (Re.match_re _ _ _ _ _) as [[e found] |] eqn:H; [| discriminate].
  apply match_sound in H as (u & rest & g' & -> & L & Hk).
  injection Hk as <- <-.
  rewrite string_length_app.
  destruct rest as [| c rest]; cycle 1.
  { replace (_ =? _)%nat with false; [discriminate |].
    symmetry. apply Nat.eqb_neq. simpl. lia. }
  intros _. rewrite string_app_nil_r.
  unfold time_regex in L. cbn [Re.lang Re.chr Re.range Re.digit] in L.
  break_lang.
  all: repeat match goal with
         | H : Ascii.eqb _ ?c = true |- _ => apply Ascii.eqb_eq in H; subst c
         end.
  all: repeat match goal with
         | H : Py.between _ _ ?c = true |- _ =>
             pose proof (between_bounds _ _ _ H);
             apply range_digit in H; [| reflexivity]
         end.
  all: match goal with
       | |- time_accepted ((?H +:+ ?H') +:+ ?C +:+ ?M) => exists (H +:+ H'), M
       | |- time_accepted (?H +:+ ?C +:+ ?M) => exists H, M
       end.
  all: unfold numeral; cbv [String.append].
  all: repeat match goal with |- _ /\ _ => split end.
  all: try reflexivity; try solve_digits; try (cbn [String.length]; lia).
  all: rewrite ?int_2, ?int_1 by (assumption || reflexivity).
  all: unfold Py.is_digit in *.
  all: repeat match goal with
         | H : Py.between _ _ ?c = true |- _ =>
             pose proof (between_bounds _ _ _ H); clear H
         end.
  all: cbn in *; lia.
Qed.

(** the run of the matcher on a time, one directive at a time *)
Section TimeSteps.
Import Re.

Lemma step_hour {A} R H rest (k : nat -> string -> groups -> option A) :
  numeral 1 2 H -> (Strptime.int H <= 23)%Z ->
  match_re
    (Seq (Group "H" (Alt (Seq (chr "2") (range "0" "3"))
                         (Alt (Seq (range "0" "1") digit) digit)))
         (Seq (chr ":") R))
    0 (H +:+ String ":" rest) [] k
  = match_re R (1 + String.length H) rest [("H", H)] k.
Proof.
  intros HH Hv. apply Z.leb_le in Hv.
  destruct (numeral_1_2 _ HH) as [(c & -> & Hc) | (c & c' & -> & Hc & Hc')].
  - apply digit_cases in Hc. simpl in Hc.
    decompose [or] Hc; try contradiction; subst c;
      rewrite ?string_app_cons, ?string_app_nil_l; destruct rest; cbn; reflexivity.
  - apply digit_cases in Hc, Hc'. simpl in Hc, Hc'.
    decompose [or] Hc; try contradiction; subst c;
      decompose [or] Hc'; try contradiction; subst c';
      vm_compute in Hv; try discriminate Hv;
      rewrite ?string_app_cons, ?string_app_nil_l; destruct rest; cbn;
      destruct (match_re R _ _ _ _); reflexivity.
Qed.

Lemma step_minute M pos g :
  numeral 1 2 M -> (Strptime.int M <= 59)%Z -> pos = 2 \/ pos = 3 ->
  match_re (Group "M" (Alt (Seq (range "0" "5") digit) digit)) pos M g final
  = Some (pos + String.length M, ("M", M) :: g).
Proof.
  intros HM Hv Hpos. apply Z.leb_le in Hv.
  destruct (numeral_1_2 _ HM) as [(c & -> & Hc) | (c & c' & -> & Hc & Hc')].
  - apply digit_cases in Hc. simpl in Hc.
    decompose [or] Hc; try contradiction; subst c;
      destruct Hpos as [-> | ->]; reflexivity.
  - apply digit_cases in Hc, Hc'. simpl in Hc, Hc'.
    decompose [or] Hc; try contradiction; subst c;
      decompose [or] Hc'; try contradiction; subst c';
      vm_compute in Hv; try discriminate Hv;
      destruct Hpos as [-> | ->]; reflexivity.
Qed.

End TimeSteps.

Lemma time_accepted_valid t : time_accepted t -> validate_time t = true.
Proof.
  intros (H & M & -> & HH & HM & Hh & Hm).
  unfold validate_time, Strptime.strptime. rewrite compile_time.
  unfold Re.rmatch, time_regex.
  rewrite !string_app_cons, !string_app_nil_l.
  rewrite step_hour by assumption.
  rewrite step_minute; [| assumption | assumption |]; cycle 1.
  { destruct HH as [_ HH]. destruct H as [| ? [| ? [| ? ?]]]; simpl in *; lia. }
  rewrite !string_length_app. cbn [String.length].
  replace (_ =? _)%nat with true by (symmetry; apply Nat.eqb_eq; lia).
  reflexivity.
Qed.

(** ** The validators on every [str]

    What [Unicode.validate_date] and [Unicode.validate_time] accept, by the
    soundness of the matcher one way and by its run, one directive at a time,
    the other way; and that on a [str] of the alphabet of the handler they
    are [validate_date] and [validate_time]. *)

Section UnicodeSound.
Context {A : Type}.
Import Unicode.

Lemma unicode_match_sound r :
  forall pos s g (k : nat -> str -> groups -> option A) x,
  match_re r pos s g k = Some x ->
  exists u rest g', s = (u ++ rest)%list /\ lang r pos u rest g g' /\
                    k (pos + length u) rest g' = Some x.
Proof.
  induction r as [p | r1 IH1 r2 IH2 | r1 IH1 r2 IH2 | n r1 IH1];
    intros pos s g k x H; simpl in H.
  - destruct s as [| c s]; [discriminate |]. destruct (p c) eqn:Hc; [| discriminate].
    exists [c], s, g. simpl. rewrite Nat.add_1_r. eauto 10.
  - apply IH1 in H as (u1 & rest1 & g1 & -> & L1 & H).
    apply IH2 in H as (u2 & rest & g' & -> & L2 & H).
    exists (u1 ++ u2)%list, rest, g'. rewrite <- app_assoc, length_app, Nat.add_assoc.
    split; [reflexivity |]. split; [| assumption]. simpl. eauto 10.
  - destruct (match_re r1 pos s g k) as [y |] eqn:H1.
    + apply IH1 in H1 as (u & rest & g' & -> & L & Hk).
      exists u, rest, g'. simpl. split; [reflexivity |]. split; [auto | congruence].
    + apply IH2 in H as (u & rest & g' & -> & L & Hk).
      exists u, rest, g'. simpl. auto.
  - apply IH1 in H as (u & rest & g1 & -> & L & Hk).
    replace (pos + length u - pos) with (length u) in Hk by lia.
    rewrite take_app_length in Hk.
    exists u, rest, ((n, u) :: g1). simpl. eauto 10.
Qed.

End UnicodeSound.

Section Facts.
Import Unicode.
Variable decimal : N -> option Z.
Hypothesis Hdb : database decimal.

Lemma unicode_between_iff lo hi c : between lo hi c = true <-> (lo <= c <= hi)%N.
Proof. unfold between. rewrite andb_true_iff, !N.leb_le. tauto. Qed.

Lemma unicode_between_not lo hi c : between lo hi c = false <-> (c < lo \/ hi < c)%N.
Proof.
  unfold between. rewrite andb_false_iff, !N.leb_gt. tauto.
Qed.

Lemma ascii_digit_decimal c v : ascii_digit c v -> decimal c = Some v.
Proof.
  intros [Hc ->]. rewrite (decimal_latin1 _ Hdb) by lia.
  now rewrite (proj2 (unicode_between_iff 48 57 c)) by lia.
Qed.

Lemma decimal_ascii c v : decimal c = Some v -> (c < 256)%N -> ascii_digit c v.
Proof.
  intros H Hc. rewrite (decimal_latin1 _ Hdb) in H by assumption.
  destruct (between 48 57 c) eqn:E; [| discriminate].
  apply unicode_between_iff in E. injection H as <-. split; [assumption | reflexivity].
Qed.

Lemma is_decimal_true c v : decimal c = Some v -> is_decimal decimal c = true.
Proof. unfold is_decimal. now intros ->. Qed.

Lemma is_decimal_iff c : is_decimal decimal c = true <-> exists v, decimal c = Some v.
Proof.
  unfold is_decimal. destruct (decimal c) as [v |]; split; eauto; try discriminate.
  intros [v H]. discriminate.
Qed.

Lemma is_decimal_latin1 c :
  (c < 256)%N -> is_decimal decimal c = between 48 57 c.
Proof.
  intros Hc. unfold is_decimal. rewrite (decimal_latin1 _ Hdb) by assumption.
  now destruct (between 48 57 c).
Qed.

Lemma decimal_int_space c v : decimal c = Some v -> int_space c = false.
Proof.
  intros H. unfold int_space.
  destruct (N.ltb_spec c 256) as [Hc | Hc].
  - apply decimal_ascii in H as [Hr _]; [| assumption].
    unfold between.
    repeat match goal with
           | |- context [(?a <=? ?b)%N] => destruct (N.leb_spec a b)
           | |- context [(?a =? ?b)%N] => destruct (N.eqb_spec a b)
           end; simpl; try reflexivity; lia.
  - rewrite (decimal_no_space _ Hdb _ _ H), andb_false_r, orb_false_r.
    unfold between.
    repeat match goal with
           | |- context [(?a <=? ?b)%N] => destruct (N.leb_spec a b)
           | |- context [(?a =? ?b)%N] => destruct (N.eqb_spec a b)
           end; simpl; try reflexivity; lia.
Qed.

Lemma unicode_int_1 c v : decimal c = Some v -> int decimal [c] = Some v.
Proof.
  intros H. unfold int. cbn [lskip rskip].
  rewrite (decimal_int_space _ _ H). cbn [rskip].
  rewrite (decimal_int_space _ _ H). cbn [digits_value]. rewrite H.
  f_equal; lia.
Qed.

Lemma unicode_int_2 c1 c2 v1 v2 :
  decimal c1 = Some v1 -> decimal c2 = Some v2 ->
  int decimal [c1; c2] = Some (10 * v1 + v2)%Z.
Proof.
  intros H1 H2. unfold int. cbn [lskip rskip].
  rewrite (decimal_int_space _ _ H1). cbn [rskip].
  rewrite (decimal_int_space _ _ H2). cbn [digits_value]. rewrite H1, H2.
  f_equal; lia.
Qed.

Lemma unicode_int_blank c v : decimal c = Some v -> int decimal [32%N; c] = Some v.
Proof.
  intros H. unfold int. cbn [lskip rskip].
  change (int_space 32) with true. cbn iota.
  rewrite (decimal_int_space _ _ H). cbn [rskip].
  rewrite (decimal_int_space _ _ H). cbn [digits_value]. rewrite H.
  f_equal; lia.
Qed.

Lemma unicode_int_4 c1 c2 c3 c4 v1 v2 v3 v4 :
  decimal c1 = Some v1 -> decimal c2 = Some v2 ->
  decimal c3 = Some v3 -> decimal c4 = Some v4 ->
  int decimal [c1; c2; c3; c4] = Some (1000 * v1 + 100 * v2 + 10 * v3 + v4)%Z.
Proof.
  intros H1 H2 H3 H4. unfold int. cbn [lskip rskip].
  rewrite (decimal_int_space _ _ H1). cbn [rskip].
  rewrite (decimal_int_space _ _ H4). cbn [digits_value]. rewrite H1, H2, H3, H4.
  f_equal; lia.
Qed.

End Facts.

Section Date.
Import Unicode.
Variable decimal : N -> option Z.
Hypothesis Hdb : database decimal.

Lemma unicode_compile_date : compile decimal "%Y-%m-%d" = Some (date_regex decimal).
Proof. reflexivity. Qed.

Lemma unicode_compile_time : compile decimal "%H:%M" = Some (time_regex decimal).
Proof. reflexivity. Qed.

Lemma is_leap_iff year : Strptime.is_leap year = true <-> leap_year year.
Proof.
  unfold Strptime.is_leap, leap_year.
  rewrite andb_true_iff, orb_true_iff, negb_true_iff, !Z.eqb_eq, Z.eqb_neq.
  split.
  - intros [H4 [H100 | H400]]; [left | right]; auto.
  - intros [[H4 H100] | H400]; [auto |]. split; [| auto].
    revert H400. Z.div_mod_to_equations. lia.
Qed.

Lemma month_days_model year month :
  (1 <= month <= 12)%Z -> month_days year month (Strptime.days_in_month year month).
Proof.
  intros Hm. unfold month_days, Strptime.days_in_month.
  assert (month = 1 \/ month = 2 \/ month = 3 \/ month = 4 \/ month = 5 \/ month = 6 \/
          month = 7 \/ month = 8 \/ month = 9 \/ month = 10 \/ month = 11 \/ month = 12)%Z
    as Hcases by lia.
  decompose [or] Hcases; subst month; try (simpl; tauto).
  change (2 =? 2)%Z with true. cbn [andb].
  destruct (Strptime.is_leap year) eqn:E.
  - apply is_leap_iff in E. tauto.
  - assert (~ leap_year year) by (rewrite <- is_leap_iff; congruence).
    simpl. tauto.
Qed.

Lemma month_days_unique year month days days' :
  month_days year month days -> month_days year month days' -> days = days'.
Proof.
  unfold month_days. simpl. intros H H'.
  decompose [or and] H; decompose [or and] H'; subst; try lia; try tauto.
Qed.

Ltac unicode_facts :=
  repeat match goal with
    | H : context [Py.code ?a] |- _ =>
        let v := eval vm_compute in (Py.code a) in change (Py.code a) with v in H
    end;
  repeat match goal with
    | H : N.eqb _ ?c = true |- _ => apply N.eqb_eq in H; subst c
    | H : between _ _ _ = true |- _ => apply unicode_between_iff in H
    | H : is_decimal decimal _ = true |- _ => apply is_decimal_iff in H as [? H]
    end.

Ltac digit_fact :=
  first [ eassumption
        | apply (ascii_digit_decimal decimal Hdb); split; [lia | reflexivity] ].

Lemma lang_year pos u rest g g' :
  lang (year_group decimal) pos u rest g g' ->
  exists year, year_numeral decimal u year /\ int decimal u = Some year /\
               g' = ("Y", u) :: g.
Proof.
  unfold year_group. cbn [lang digit]. intros L. break_lang. unicode_facts.
  cbn [app]. eexists. split; [| split; [| reflexivity]].
  - repeat eexists; eassumption.
  - now apply unicode_int_4.
Qed.

Lemma lang_month pos u rest g g' :
  lang month_group pos u rest g g' ->
  exists month, month_numeral u month /\ int decimal u = Some month /\
                g' = ("m", u) :: g.
Proof.
  unfold month_group. cbn [lang chr range]. intros L. break_lang. all: unicode_facts.
  all: cbn [app]; eexists; (split; [| split; [| reflexivity]]).
  all: try (right; do 4 eexists; split; [reflexivity |];
            split; [split; [lia | reflexivity] |];
            split; [split; [lia | reflexivity] | reflexivity]).
  all: try (left; eexists; split; [reflexivity |]; split; [lia | reflexivity]).
  all: first [ apply (unicode_int_2 decimal Hdb); digit_fact | apply (unicode_int_1 decimal Hdb); digit_fact ].
Qed.

Lemma lang_day pos u rest g g' :
  lang (day_group decimal) pos u rest g g' ->
  exists day, day_numeral decimal u day /\ int decimal u = Some day /\
              g' = ("d", u) :: g.
Proof.
  unfold day_group. cbn [lang chr range digit]. intros L. break_lang. all: unicode_facts.
  all: cbn [app]; eexists; (split; [| split; [| reflexivity]]).
  all: try (apply (unicode_int_blank decimal Hdb); digit_fact).
  all: try (apply (unicode_int_2 decimal Hdb); digit_fact).
  all: try (apply (unicode_int_1 decimal Hdb); digit_fact).
  - right. right. do 4 eexists. split; [reflexivity |].
    split; [split; [lia | reflexivity] |]. split; [digit_fact |].
    split; [right; right; lia | reflexivity].
  - right. right. do 4 eexists. split; [reflexivity |].
    split; [split; [lia | reflexivity] |]. split; [eassumption |].
    split; [lia | reflexivity].
  - right. right. do 4 eexists. split; [reflexivity |].
    split; [split; [lia | reflexivity] |]. split; [digit_fact |].
    split; [right; right; lia | reflexivity].
  - left. eexists. split; [reflexivity |]. split; [lia | reflexivity].
  - right. left. eexists. split; [reflexivity |]. split; [lia | reflexivity].
Qed.

Lemma lang_hour pos u rest g g' :
  lang (hour_group decimal) pos u rest g g' ->
  exists hour, hour_numeral decimal u hour /\ int decimal u = Some hour /\
               g' = ("H", u) :: g /\ (0 <= hour <= 23)%Z.
Proof.
  unfold hour_group. cbn [lang chr range digit]. intros L. break_lang. all: unicode_facts.
  all: cbn [app]; eexists; (split; [| split; [| split; [reflexivity |]]]).
  all: try (apply (unicode_int_2 decimal Hdb); digit_fact).
  all: try (apply (unicode_int_1 decimal Hdb); digit_fact).
  all: repeat match goal with
         | H : decimal _ = Some _ |- _ =>
             pose proof (decimal_value _ Hdb _ _ H); revert H
         end; intros.
  - right. do 4 eexists. split; [reflexivity |].
    split; [split; [lia | reflexivity] |]. split; [digit_fact |].
    split; [right; right; lia | reflexivity].
  - lia.
  - right. do 4 eexists. split; [reflexivity |].
    split; [split; [lia | reflexivity] |]. split; [eassumption |].
    split; [lia | reflexivity].
  - lia.
  - left. eexists. split; [reflexivity | eassumption].
  - lia.
Qed.

Lemma lang_minute pos u rest g g' :
  lang (minute_group decimal) pos u rest g g' ->
  exists minute, minute_numeral decimal u minute /\ int decimal u = Some minute /\
                 g' = ("M", u) :: g /\ (0 <= minute <= 59)%Z.
Proof.
  unfold minute_group. cbn [lang chr range digit]. intros L. break_lang. all: unicode_facts.
  all: cbn [app]; eexists; (split; [| split; [| split; [reflexivity |]]]).
  all: try (apply (unicode_int_2 decimal Hdb); digit_fact).
  all: try (apply (unicode_int_1 decimal Hdb); digit_fact).
  all: repeat match goal with
         | H : decimal _ = Some _ |- _ =>
             pose proof (decimal_value _ Hdb _ _ H); revert H
         end; intros.
  - right. do 4 eexists. split; [reflexivity |].
    split; [split; [lia | reflexivity] |]. split; [eassumption | reflexivity].
  - lia.
  - left. eexists. split; [reflexivity | eassumption].
  - lia.
Qed.

Lemma lang_chr c pos u rest g g' :
  lang (chr c) pos u rest g g' -> u = [Py.code c] /\ g' = g.
Proof.
  cbn [lang chr]. intros (x & -> & H & ->). apply N.eqb_eq in H. now subst.
Qed.

Lemma year_numeral_bound Y year : year_numeral decimal Y year -> (0 <= year <= 9999)%Z.
Proof.
  intros (c1 & c2 & c3 & c4 & v1 & v2 & v3 & v4 & _ & H1 & H2 & H3 & H4 & ->).
  apply (decimal_value _ Hdb) in H1, H2, H3, H4. lia.
Qed.

Lemma validate_date_unicode_accepted d :
  validate_date decimal d = true -> accepted_date decimal d.
Proof.
  unfold validate_date, strptime. rewrite unicode_compile_date. cbn [mbind option_bind].
  unfold rmatch.
  destruct (match_re _ _ _ _ _) as [[e found] |] eqn:H; [| discriminate].
  apply unicode_match_sound in H as (u & rest & g' & -> & L & Hk).
  injection Hk as <- <-. cbn [mbind option_bind fst snd].
  rewrite length_app.
  destruct rest as [| c rest]; cycle 1.
  { replace (_ =? _)%nat with false; [discriminate |].
    symmetry. apply Nat.eqb_neq. simpl. lia. }
  rewrite Nat.add_0_r, Nat.eqb_refl, app_nil_r. cbn [negb].
  unfold date_regex in L. cbn [lang] in L.
  destruct L as (Y & u1 & g1 & -> & LY & s1 & u2 & g2 & -> & L1 &
                 M & u3 & g3 & -> & LM & s2 & D & g4 & -> & L2 & LD).
  apply lang_year in LY as (year & HY & Hyear & ->).
  apply lang_chr in L1 as [-> ->].
  apply lang_month in LM as (month & HM & Hmonth & ->).
  apply lang_chr in L2 as [-> ->].
  apply lang_day in LD as (day & HD & Hday & ->).
  cbv [field group String.eqb Ascii.eqb Bool.eqb].
  rewrite Hyear, Hmonth, Hday. cbn [mbind option_bind].
  destruct (Strptime.check_date_fields year month day) eqn:Hc; [| discriminate].
  intros _. apply check_date_fields_iff in Hc as (Hy & Hm & Hd).
  exists Y, M, D, year, month, day, (Strptime.days_in_month year month).
  split; [reflexivity |]. repeat split; try assumption; try lia.
  now apply month_days_model.
Qed.

Lemma validate_time_unicode_accepted t :
  validate_time decimal t = true -> accepted_time decimal t.
Proof.
  unfold validate_time, strptime. rewrite unicode_compile_time. cbn [mbind option_bind].
  unfold rmatch.
  destruct (match_re _ _ _ _ _) as [[e found] |] eqn:H; [| discriminate].
  apply unicode_match_sound in H as (u & rest & g' & -> & L & Hk).
  injection Hk as <- <-. cbn [mbind option_bind fst snd].
  rewrite length_app.
  destruct rest as [| c rest]; cycle 1.
  { replace (_ =? _)%nat with false; [discriminate |].
    symmetry. apply Nat.eqb_neq. simpl. lia. }
  intros _. rewrite app_nil_r.
  unfold time_regex in L. cbn [lang] in L.
  destruct L as (H & u1 & g1 & -> & LH & s1 & M & g2 & -> & L1 & LM).
  apply lang_hour in LH as (hour & HH & _ & -> & Hh).
  apply lang_chr in L1 as [-> ->].
  apply lang_minute in LM as (minute & HM & _ & -> & Hm).
  exists H, M, hour, minute. split; [reflexivity |]. repeat split; try assumption; lia.
Qed.

End Date.

Ltac codes :=
  repeat match goal with
    | |- context [Py.code ?a] =>
        let v := eval vm_compute in (Py.code a) in change (Py.code a) with v
    end.

Ltac run_tests :=
  repeat (cbn beta iota;
          match goal with
          | |- context [if ?b then _ else _] => let E := fresh "E" in destruct b eqn:E
          end).

Ltac test_facts :=
  repeat match goal with
    | E : (_ =? _)%N = true |- _ => apply N.eqb_eq in E
    | E : (_ =? _)%N = false |- _ => apply N.eqb_neq in E
    | E : Unicode.between _ _ _ = true |- _ => apply unicode_between_iff in E
    | E : Unicode.between _ _ _ = false |- _ => apply unicode_between_not in E
    end.

Section Steps.
Import Unicode.
Variable decimal : N -> option Z.
Hypothesis Hdb : database decimal.

Lemma decimal_facts c v :
  decimal c = Some v ->
  (0 <= v <= 9)%Z /\ ((c < 256)%N -> (48 <= c <= 57)%N /\ v = (Z.of_N c - 48)%Z).
Proof.
  intros H. split; [now apply (decimal_value _ Hdb _ _ H) |].
  intros Hc. now apply (decimal_ascii decimal Hdb).
Qed.

Lemma step_chr_unicode {A} R c pos rest g (k : nat -> str -> groups -> option A) :
  match_re (Seq (chr c) R) pos (Py.code c :: rest) g k = match_re R (S pos) rest g k.
Proof. cbn [match_re chr]. now rewrite N.eqb_refl. Qed.

Lemma step_year_unicode {A} R Y year rest (k : nat -> str -> groups -> option A) :
  year_numeral decimal Y year ->
  match_re (Seq (year_group decimal) R) 0 (Y ++ rest)%list [] k
  = match_re R 4 rest [("Y", Y)] k.
Proof.
  intros (c1 & c2 & c3 & c4 & v1 & v2 & v3 & v4 & -> & H1 & H2 & H3 & H4 & _).
  cbn [app year_group match_re digit].
  rewrite (is_decimal_true _ _ _ H1), (is_decimal_true _ _ _ H2),
    (is_decimal_true _ _ _ H3), (is_decimal_true _ _ _ H4).
  reflexivity.
Qed.

Lemma step_month_unicode {A} R M month rest g (k : nat -> str -> groups -> option A) :
  month_numeral M month -> (1 <= month <= 12)%Z ->
  match_re (Seq month_group (Seq (chr "-") R)) 5 (M ++ 45%N :: rest)%list g k
  = match_re R (6 + length M) rest (("m", M) :: g) k.
Proof.
  intros [(c & -> & [Hc ->]) | (c1 & c2 & v1 & v2 & -> & [Hc1 ->] & [Hc2 ->] & ->)] Hm.
  all: cbn [app length month_group match_re chr range Nat.add Nat.sub take]; codes.
  all: run_tests; test_facts.
  all: first [exfalso; lia | reflexivity | destruct (match_re R _ _ _ _); reflexivity].
Qed.

Lemma step_day_unicode D day pos g :
  day_numeral decimal D day -> (1 <= day <= 31)%Z -> pos = 7 \/ pos = 8 ->
  match_re (day_group decimal) pos D g final = Some (pos + length D, ("d", D) :: g).
Proof.
  intros [(c & -> & [Hc ->]) | [(c & -> & [Hc ->]) |
          (c1 & c2 & v1 & v2 & -> & [Hc1 ->] & H2 & Hv & ->)]] Hd Hpos.
  3: pose proof (decimal_facts _ _ H2) as [? ?].
  all: destruct Hpos as [-> | ->].
  all: cbn [app length day_group match_re chr range digit Nat.add Nat.sub take final]; codes.
  all: rewrite ?(is_decimal_true _ _ _ H2).
  all: run_tests; test_facts.
  all: first [exfalso; lia | reflexivity].
Qed.

Lemma step_hour_unicode {A} R H hour rest (k : nat -> str -> groups -> option A) :
  hour_numeral decimal H hour -> (hour <= 23)%Z ->
  match_re (Seq (hour_group decimal) (Seq (chr ":") R)) 0 (H ++ 58%N :: rest)%list [] k
  = match_re R (1 + length H) rest [("H", H)] k.
Proof.
  intros [(c & -> & H1) |
          (c1 & c2 & v1 & v2 & -> & Hc1 & H2 & Hv & ->)] Hh.
  - pose proof (decimal_facts _ _ H1) as [? ?].
    cbn [app length hour_group match_re chr range digit Nat.add Nat.sub take]; codes.
    rewrite ?(is_decimal_true _ _ _ H1), ?(is_decimal_latin1 decimal Hdb 58) by lia.
    run_tests; test_facts.
    all: first [exfalso; lia | reflexivity | destruct (match_re R _ _ _ _); reflexivity].
  - pose proof (ascii_digit_decimal decimal Hdb _ _ Hc1) as H1.
    destruct Hc1 as [Hc1 ->].
    pose proof (decimal_facts _ _ H2) as [? ?].
    cbn [app length hour_group match_re chr range digit Nat.add Nat.sub take]; codes.
    rewrite ?(is_decimal_true _ _ _ H1), ?(is_decimal_true _ _ _ H2).
    run_tests; test_facts.
    all: first [exfalso; lia | reflexivity | destruct (match_re R _ _ _ _); reflexivity].
Qed.

Lemma step_minute_unicode M minute pos g :
  minute_numeral decimal M minute -> (minute <= 59)%Z -> pos = 2 \/ pos = 3 ->
  match_re (minute_group decimal) pos M g final = Some (pos + length M, ("M", M) :: g).
Proof.
  intros [(c & -> & H1) |
          (c1 & c2 & v1 & v2 & -> & [Hc1 ->] & H2 & ->)] Hm Hpos.
  - destruct Hpos as [-> | ->].
    all: cbn [app length minute_group match_re chr range digit Nat.add Nat.sub take final]; codes.
    all: rewrite ?(is_decimal_true _ _ _ H1).
    all: run_tests; reflexivity.
  - pose proof (decimal_facts _ _ H2) as [? ?].
    destruct Hpos as [-> | ->].
    all: cbn [app length minute_group match_re chr range digit Nat.add Nat.sub take final]; codes.
    all: rewrite ?(is_decimal_true _ _ _ H2).
    all: run_tests; test_facts.
    all: first [exfalso; lia | reflexivity].
Qed.

End Steps.

Section Complete.
Import Unicode.
Variable decimal : N -> option Z.
Hypothesis Hdb : database decimal.

Lemma year_numeral_int Y year : year_numeral decimal Y year -> int decimal Y = Some year.
Proof.
  intros (c1 & c2 & c3 & c4 & v1 & v2 & v3 & v4 & -> & H1 & H2 & H3 & H4 & ->).
  now apply unicode_int_4.
Qed.

Lemma month_numeral_int M month :
  month_numeral M month -> int decimal M = Some month /\ (length M = 1 \/ length M = 2).
Proof.
  intros [(c & -> & Hc) | (c1 & c2 & v1 & v2 & -> & Hc1 & Hc2 & ->)].
  - split; [| now left]. apply (unicode_int_1 decimal Hdb). now apply ascii_digit_decimal.
  - split; [| now right]. apply (unicode_int_2 decimal Hdb); now apply ascii_digit_decimal.
Qed.

Lemma day_numeral_int D day : day_numeral decimal D day -> int decimal D = Some day.
Proof.
  intros [(c & -> & Hc) | [(c & -> & Hc) | (c1 & c2 & v1 & v2 & -> & Hc1 & H2 & _ & ->)]].
  - apply (unicode_int_1 decimal Hdb). now apply ascii_digit_decimal.
  - apply (unicode_int_blank decimal Hdb). now apply ascii_digit_decimal.
  - apply (unicode_int_2 decimal Hdb); [now apply ascii_digit_decimal | assumption].
Qed.

Lemma hour_numeral_int H hour :
  hour_numeral decimal H hour ->
  int decimal H = Some hour /\ (0 <= hour)%Z /\ (length H = 1 \/ length H = 2).
Proof.
  intros [(c & -> & H1) | (c1 & c2 & v1 & v2 & -> & Hc1 & H2 & _ & ->)].
  - split; [now apply (unicode_int_1 decimal Hdb) |].
    apply (decimal_value _ Hdb) in H1. split; [lia | now left].
  - split; [apply (unicode_int_2 decimal Hdb); [now apply ascii_digit_decimal | assumption] |].
    apply (decimal_value _ Hdb) in H2. destruct Hc1 as [Hc1 ->]. split; [lia | now right].
Qed.

Lemma minute_numeral_int M minute :
  minute_numeral decimal M minute -> int decimal M = Some minute /\ (0 <= minute)%Z.
Proof.
  intros [(c & -> & H1) | (c1 & c2 & v1 & v2 & -> & Hc1 & H2 & ->)].
  - split; [now apply (unicode_int_1 decimal Hdb) |].
    apply (decimal_value _ Hdb) in H1. lia.
  - split; [apply (unicode_int_2 decimal Hdb); [now apply ascii_digit_decimal | assumption] |].
    apply (decimal_value _ Hdb) in H2. destruct Hc1 as [Hc1 ->]. lia.
Qed.

Lemma month_days_bound year month days :
  month_days year month days -> (days <= 31)%Z.
Proof. unfold month_days. intros H. decompose [or and] H; lia. Qed.

Lemma year_numeral_length Y year : year_numeral decimal Y year -> length Y = 4.
Proof. intros (c1 & c2 & c3 & c4 & v1 & v2 & v3 & v4 & -> & _). reflexivity. Qed.

Lemma accepted_date_unicode_valid d :
  accepted_date decimal d -> validate_date decimal d = true.
Proof.
  intros (Y & M & D & year & month & day & days & -> & HY & HM & HD & Hy & Hm & Hdays & Hd).
  pose proof (year_numeral_bound decimal Hdb _ _ HY) as Hy'.
  pose proof (month_days_bound _ _ _ Hdays) as Hdim.
  pose proof (month_days_unique _ _ _ _ Hdays (month_days_model year month Hm)) as ->.
  destruct (month_numeral_int _ _ HM) as [Hmonth HlM].
  unfold validate_date, strptime. rewrite unicode_compile_date. cbn [mbind option_bind].
  unfold rmatch, date_regex.
  change (of_string "-") with [Py.code "-"]. cbn [app].
  rewrite (step_year_unicode decimal _ _ year) by assumption.
  rewrite step_chr_unicode.
  change (Py.code "-") with 45%N.
  rewrite (step_month_unicode _ _ month) by assumption.
  rewrite (step_day_unicode decimal Hdb _ day); [| assumption | lia | lia].
  cbn [mbind option_bind fst snd].
  rewrite !length_app. cbn [length]. rewrite !length_app. cbn [length].
  rewrite (year_numeral_length _ _ HY).
  replace (_ =? _)%nat with true by (symmetry; apply Nat.eqb_eq; lia).
  cbv [negb field group String.eqb Ascii.eqb Bool.eqb].
  rewrite Hmonth, (day_numeral_int _ _ HD), (year_numeral_int _ _ HY).
  cbn [mbind option_bind].
  replace (Strptime.check_date_fields _ _ _) with true; [reflexivity |].
  symmetry. apply check_date_fields_iff. lia.
Qed.

Lemma accepted_time_unicode_valid t :
  accepted_time decimal t -> validate_time decimal t = true.
Proof.
  intros (H & M & hour & minute & -> & HH & HM & Hh & Hm).
  destruct (hour_numeral_int _ _ HH) as (Hhour & Hh0 & HlH).
  destruct (minute_numeral_int _ _ HM) as (Hminute & Hm0).
  unfold validate_time, strptime. rewrite unicode_compile_time. cbn [mbind option_bind].
  unfold rmatch, time_regex.
  change (of_string ":") with [58%N]. cbn [app].
  rewrite (step_hour_unicode decimal Hdb _ _ hour) by assumption.
  rewrite (step_minute_unicode decimal Hdb _ minute); [| assumption | assumption | lia].
  cbn [mbind option_bind fst snd].
  rewrite !length_app. cbn [length].
  replace (_ =? _)%nat with true by (symmetry; apply Nat.eqb_eq; lia).
  cbv [negb field group String.eqb Ascii.eqb Bool.eqb].
  rewrite Hhour, Hminute. cbn [mbind option_bind].
  replace (check_time_fields _ _) with true; [reflexivity |].
  symmetry. unfold check_time_fields. rewrite !andb_true_iff, !Z.leb_le. lia.
Qed.

End Complete.

Lemma of_string_app a b :
  Unicode.of_string (a +:+ b) = (Unicode.of_string a ++ Unicode.of_string b)%list.
Proof.
  induction a as [| c a IH]; [reflexivity |].
  rewrite string_app_cons. unfold Unicode.of_string in *. simpl. now rewrite IH.
Qed.

Lemma code_bounded c : (Py.code c < 256)%N.
Proof. apply N_ascii_bounded. Qed.

Lemma code_inj a b : Py.code a = Py.code b -> a = b.
Proof.
  unfold Py.code. intros H.
  rewrite <- (ascii_N_embedding a), <- (ascii_N_embedding b). now rewrite H.
Qed.

Lemma of_string_cons_inv s c l :
  Unicode.of_string s = c :: l ->
  exists a s', s = String a s' /\ Py.code a = c /\ Unicode.of_string s' = l.
Proof.
  destruct s as [| a s']; [discriminate |]. intros H. injection H as <- <-. eauto.
Qed.

Lemma of_string_nil_inv s : Unicode.of_string s = [] -> s = "".
Proof. destruct s; [reflexivity | discriminate]. Qed.

Lemma is_digit_code c : Py.is_digit c = true <-> (48 <= Py.code c <= 57)%N.
Proof. unfold Py.is_digit, Py.between. rewrite andb_true_iff, !N.leb_le. tauto. Qed.

Lemma int_4 c1 c2 c3 c4 :
  Py.is_digit c1 = true -> Py.is_digit c2 = true ->
  Py.is_digit c3 = true -> Py.is_digit c4 = true ->
  Strptime.int (String c1 (String c2 (String c3 (String c4 ""))))
  = (1000 * (Z.of_N (Py.code c1) - 48) + 100 * (Z.of_N (Py.code c2) - 48)
     + 10 * (Z.of_N (Py.code c3) - 48) + (Z.of_N (Py.code c4) - 48))%Z.
Proof.
  intros H1 H2 H3 H4. unfold Strptime.int, Py.strip. cbn [Py.lstrip].
  rewrite (digit_not_space _ H1). cbn [Py.rstrip].
  rewrite (digit_not_space _ H4). cbn [Strptime.digits_value]. lia.
Qed.

Lemma int_blank_digit c :
  Py.is_digit c = true ->
  Strptime.int (String " " (String c "")) = (Z.of_N (Py.code c) - 48)%Z.
Proof.
  intros H. unfold Strptime.int, Py.strip. cbn [Py.lstrip].
  change (Py.is_space " ") with true. cbn iota.
  rewrite (digit_not_space _ H). cbn [Py.rstrip]. rewrite (digit_not_space _ H).
  cbn [Strptime.digits_value]. lia.
Qed.

Section Bridge.
Variable decimal : N -> option Z.
Hypothesis Hdb : Unicode.database decimal.

Lemma digit_ascii_digit c :
  Py.is_digit c = true -> ascii_digit (Py.code c) (Z.of_N (Py.code c) - 48).
Proof. intros H. apply is_digit_code in H. split; [assumption | reflexivity]. Qed.

Lemma digit_decimal c :
  Py.is_digit c = true -> decimal (Py.code c) = Some (Z.of_N (Py.code c) - 48)%Z.
Proof. intros H. apply (ascii_digit_decimal decimal Hdb). now apply digit_ascii_digit. Qed.

Lemma decimal_digit c v :
  decimal (Py.code c) = Some v ->
  Py.is_digit c = true /\ v = (Z.of_N (Py.code c) - 48)%Z.
Proof.
  intros H. apply (decimal_ascii decimal Hdb) in H as [H ->]; [| apply code_bounded].
  split; [now apply is_digit_code | reflexivity].
Qed.

Lemma ascii_digit_digit c v :
  ascii_digit (Py.code c) v -> Py.is_digit c = true /\ v = (Z.of_N (Py.code c) - 48)%Z.
Proof. intros [H ->]. split; [now apply is_digit_code | reflexivity]. Qed.

Lemma date_shape_accepted s : date_shape s -> accepted_date decimal (Unicode.of_string s).
Proof.
  intros (Y & M & D & -> & HY & HM & HD & Hy & Hm & Hd).
  exists (Unicode.of_string Y), (Unicode.of_string M), (Unicode.of_string D),
    (Strptime.int Y), (Strptime.int M), (Strptime.int D),
    (Strptime.days_in_month (Strptime.int Y) (Strptime.int M)).
  split; [now rewrite !of_string_app |].
  split; [| split; [| split; [| split; [assumption | split; [assumption |
    split; [now apply month_days_model | assumption]]]]]].
  - destruct (numeral_4 _ HY) as (c1 & c2 & c3 & c4 & -> & H1 & H2 & H3 & H4).
    rewrite int_4 by assumption.
    exists (Py.code c1), (Py.code c2), (Py.code c3), (Py.code c4).
    do 4 eexists. split; [reflexivity |].
    repeat (split; [now apply digit_decimal |]). reflexivity.
  - destruct (numeral_1_2 _ HM) as [(c & -> & Hc) | (c & c' & -> & Hc & Hc')].
    + left. exists (Py.code c). split; [reflexivity |].
      rewrite int_1 by assumption. now apply digit_ascii_digit.
    + right. exists (Py.code c), (Py.code c'). do 2 eexists.
      split; [reflexivity |]. rewrite int_2 by assumption.
      split; [now apply digit_ascii_digit |].
      split; [now apply digit_ascii_digit | reflexivity].
  - destruct HD as [HD | (c & -> & Hc)].
    + destruct (numeral_1_2 _ HD) as [(c & -> & Hc) | (c & c' & -> & Hc & Hc')].
      * left. exists (Py.code c). split; [reflexivity |].
        rewrite int_1 by assumption. now apply digit_ascii_digit.
      * right. right. exists (Py.code c), (Py.code c'). do 2 eexists.
        split; [reflexivity |]. rewrite int_2 by assumption.
        split; [now apply digit_ascii_digit |].
        split; [now apply digit_decimal |]. split; [| reflexivity].
        right. right. pose proof (code_bounded c'). apply is_digit_code in Hc'. lia.
    + right. left. exists (Py.code c). split; [reflexivity |].
      rewrite int_blank_digit by assumption. now apply digit_ascii_digit.
Qed.

(** read a string back from its code points *)
Ltac read_back H :=
  repeat match type of H with
    | Unicode.of_string _ = _ :: _ =>
        let a := fresh "a" in let E := fresh "E" in
        apply of_string_cons_inv in H as (a & ? & -> & E & H)
    | Unicode.of_string _ = [] => apply of_string_nil_inv in H as ->
    end.

Ltac digits_back :=
  repeat match goal with
    | H : decimal (Py.code _) = Some _ |- _ => apply decimal_digit in H as [? ->]
    | H : ascii_digit (Py.code _) _ |- _ => apply ascii_digit_digit in H as [? ->]
    | H : Py.code ?a = 45%N |- _ => apply (code_inj a "-") in H; subst a
    | H : Py.code ?a = 58%N |- _ => apply (code_inj a ":") in H; subst a
    | H : Py.code ?a = 32%N |- _ => apply (code_inj a " ") in H; subst a
    end.

Lemma accepted_date_shape s : accepted_date decimal (Unicode.of_string s) -> date_shape s.
Proof.
  intros (Y & M & D & year & month & day & days & E & HY & HM & HD & Hy & Hm & Hdays & Hd).
  pose proof (month_days_unique _ _ _ _ Hdays (month_days_model year month Hm)) as ->.
  destruct HY as (c1 & c2 & c3 & c4 & v1 & v2 & v3 & v4 & -> & H1 & H2 & H3 & H4 & ->).
  change (Unicode.of_string "-") with [45%N] in E.
  destruct HM as [(m & -> & Hm1) | (m1 & m2 & w1 & w2 & -> & Hm1 & Hm2 & ->)];
    destruct HD as [(d & -> & Hd1) | [(d & -> & Hd1) |
                    (d1 & d2 & x1 & x2 & -> & Hd1 & Hd2 & _ & ->)]];
    cbn [app] in E; read_back E; subst; digits_back.
  all: match goal with
       | |- date_shape (String ?y1 (String ?y2 (String ?y3 (String ?y4 (String "-" ?r))))) =>
           match r with
           | String ?m1 (String "-" ?D) =>
               exists (String y1 (String y2 (String y3 (String y4 "")))),
                 (String m1 ""), D
           | String ?m1 (String ?m2 (String "-" ?D)) =>
               exists (String y1 (String y2 (String y3 (String y4 "")))),
                 (String m1 (String m2 "")), D
           end
       end.
  all: rewrite ?int_4, ?int_2, ?int_1, ?int_blank_digit by assumption.
  all: split; [reflexivity |].
  all: unfold numeral, blank_digit; cbn [all_chars String.length].
  all: repeat match goal with
         | H : Py.is_digit ?c = true |- context [Py.is_digit ?c] => rewrite H
         end.
  all: cbn [andb].
  all: repeat match goal with |- _ /\ _ => split end; try reflexivity; try lia.
  all: first [ left; split; [reflexivity | lia]
             | right; eexists; split; [reflexivity | assumption] ].
Qed.

Lemma validate_date_latin1 s :
  validate_date s = Unicode.validate_date decimal (Unicode.of_string s).
Proof.
  destruct (validate_date s) eqn:E1.
  - symmetry. apply (accepted_date_unicode_valid decimal Hdb).
    apply date_shape_accepted. now apply validate_date_shape.
  - destruct (Unicode.validate_date decimal (Unicode.of_string s)) eqn:E2; [| reflexivity].
    apply (validate_date_unicode_accepted decimal Hdb) in E2.
    apply accepted_date_shape, date_shape_valid in E2. congruence.
Qed.

Lemma time_accepted_unicode t : time_accepted t -> accepted_time decimal (Unicode.of_string t).
Proof.
  intros (H & M & -> & HH & HM & Hh & Hm).
  exists (Unicode.of_string H), (Unicode.of_string M), (Strptime.int H), (Strptime.int M).
  split; [now rewrite !of_string_app |].
  split; [| split; [| split; assumption]].
  - destruct (numeral_1_2 _ HH) as [(c & -> & Hc) | (c & c' & -> & Hc & Hc')].
    + left. exists (Py.code c). split; [reflexivity |].
      rewrite int_1 by assumption. now apply digit_decimal.
    + right. exists (Py.code c), (Py.code c'). do 2 eexists.
      split; [reflexivity |]. rewrite int_2 by assumption.
      split; [now apply digit_ascii_digit |].
      split; [now apply digit_decimal |]. split; [| reflexivity].
      right. right. pose proof (code_bounded c'). apply is_digit_code in Hc'. lia.
  - destruct (numeral_1_2 _ HM) as [(c & -> & Hc) | (c & c' & -> & Hc & Hc')].
    + left. exists (Py.code c). split; [reflexivity |].
      rewrite int_1 by assumption. now apply digit_decimal.
    + right. exists (Py.code c), (Py.code c'). do 2 eexists.
      split; [reflexivity |]. rewrite int_2 by assumption.
      split; [now apply digit_ascii_digit |].
      split; [now apply digit_decimal | reflexivity].
Qed.

Lemma accepted_time_latin1 t : accepted_time decimal (Unicode.of_string t) -> time_accepted t.
Proof.
  intros (H & M & hour & minute & E & HH & HM & Hh & Hm).
  change (Unicode.of_string ":") with [58%N] in E.
  destruct HH as [(h & -> & Hh1) | (h1 & h2 & v1 & v2 & -> & Hh1 & Hh2 & _ & ->)];
    destruct HM as [(m & -> & Hm1) | (m1 & m2 & w1 & w2 & -> & Hm1 & Hm2 & ->)];
    cbn [app] in E; read_back E; subst; digits_back.
  all: match goal with
       | |- time_accepted (String ?h1 (String ":" ?M)) => exists (String h1 ""), M
       | |- time_accepted (String ?h1 (String ?h2 (String ":" ?M))) =>
           exists (String h1 (String h2 "")), M
       end.
  all: rewrite ?int_2, ?int_1 by assumption.
  all: split; [reflexivity |].
  all: unfold numeral; cbn [all_chars String.length].
  all: repeat match goal with
         | H : Py.is_digit ?c = true |- context [Py.is_digit ?c] => rewrite H
         end.
  all: cbn [andb].
  all: repeat match goal with |- _ /\ _ => split end; try reflexivity; try lia.
Qed.

Lemma validate_time_latin1 t :
  validate_time t = Unicode.validate_time decimal (Unicode.of_string t).
Proof.
  destruct (validate_time t) eqn:E1.
  - symmetry. apply (accepted_time_unicode_valid decimal Hdb).
    apply time_accepted_unicode. now apply validate_time_accepted.
  - destruct (Unicode.validate_time decimal (Unicode.of_string t)) eqn:E2; [| reflexivity].
    apply (validate_time_unicode_accepted decimal Hdb) in E2.
    apply accepted_time_latin1, time_accepted_valid in E2. congruence.
Qed.

End Bridge.

Lemma find_zero_none (c : N) (l : list N) :
  forallb (fun zero => (256 <=? zero)%N) l = true -> (c < 256)%N ->
  List.find (fun zero => Unicode.between zero (zero + 9) c) l = None.
Proof.
  intros Hl Hc. induction l as [| zero l IH]; [reflexivity |].
  simpl in Hl. apply andb_true_iff in Hl as [Hz Hl]. apply N.leb_le in Hz.
  cbn [List.find]. replace (Unicode.between zero (zero + 9) c) with false; [auto |].
  symmetry. apply unicode_between_not. lia.
Qed.

Lemma unicode14_zero c v :
  Unicode.unicode14 c = Some v ->
  exists zero, In zero Unicode.zeros /\ (zero <= c <= zero + 9)%N /\
               v = Z.of_N (c - zero).
Proof.
  unfold Unicode.unicode14.
  destruct (List.find _ Unicode.zeros) as [zero |] eqn:E; [| discriminate].
  intros H. injection H as <-. apply find_some in E as [Hin Hb].
  apply unicode_between_iff in Hb. eauto.
Qed.

Lemma unicode14_database : Unicode.database Unicode.unicode14.
Proof.
  split.
  - intros c Hc. unfold Unicode.unicode14.
    change Unicode.zeros with (48%N :: tl Unicode.zeros). cbn [List.find].
    change (48 + 9)%N with 57%N.
    destruct (Unicode.between 48 57 c) eqn:E.
    + apply unicode_between_iff in E. f_equal. lia.
    + rewrite find_zero_none; [reflexivity | vm_compute; reflexivity | assumption].
  - intros c v H. apply unicode14_zero in H as (zero & _ & Hc & ->). lia.
  - intros c v H. apply unicode14_zero in H as (zero & Hin & Hc & _).
    assert (Hfree : forallb (fun zero =>
                       forallb (fun i => negb (Unicode.is_space (zero + i)))
                         [0; 1; 2; 3; 4; 5; 6; 7; 8; 9]%N) Unicode.zeros = true)
      by (vm_compute; reflexivity).
    rewrite forallb_forall in Hfree. specialize (Hfree zero Hin).
    rewrite forallb_forall in Hfree.
    assert (Hi : In (c - zero)%N [0; 1; 2; 3; 4; 5; 6; 7; 8; 9]%N).
    { assert (c - zero = 0 \/ c - zero = 1 \/ c - zero = 2 \/ c - zero = 3 \/
              c - zero = 4 \/ c - zero = 5 \/ c - zero = 6 \/ c - zero = 7 \/
              c - zero = 8 \/ c - zero = 9)%N as Hcases by lia.
      simpl. intuition. }
    specialize (Hfree _ Hi). apply negb_true_iff in Hfree.
    now replace (zero + (c - zero))%N with c in Hfree by lia.
Qed.

(** C3, amended. Whatever the Unicode database, [validate_date] accepts
    exactly the strings [Y-M-D] where [Y] is four decimal digits with a value
    of at least 1, [M] is one or two ASCII digits with a value from 1 to 12,
    and [D] is written as a day ([day_numeral]) with a value from 1 to the
    number of days of that month of that year. The digits of the year, and the
    second digit of a day from 10 to 29, may be any decimal digits of
    Unicode; every other digit is ASCII. On a string of the alphabet of the
    handler this is the [validate_date] the handler calls. *)
Theorem validate_date_iff (decimal : N -> option Z) :
  Unicode.database decimal ->
  (forall d : Unicode.str,
      Unicode.validate_date decimal d = true <-> accepted_date decimal d) /\
  (forall d : string,
      validate_date d = Unicode.validate_date decimal (Unicode.of_string d)).
Proof.
  intros Hdb. split.
  - intros d. split.
    + now apply validate_date_unicode_accepted.
    + now apply accepted_date_unicode_valid.
  - intros d. now apply validate_date_latin1.
Qed.

Lemma validate_date_iff_witness :
  Unicode.database Unicode.unicode14 /\
  ((forall d : Unicode.str,
       Unicode.validate_date Unicode.unicode14 d = true <->
       accepted_date Unicode.unicode14 d) /\
   (forall d : string,
       validate_date d
       = Unicode.validate_date Unicode.unicode14 (Unicode.of_string d))) /\
  map validate_date ["2024-02-29"; "2024-02-30"; "2024-2-9"; "2024-02- 9"; "0000-01-01"]
  = [true; false; true; true; false] /\
  map (Unicode.validate_date Unicode.unicode14)
    [(fullwidth "2024" ++ Unicode.of_string "-02-29")%list;
     (Unicode.of_string "2024-02-2" ++ fullwidth "9")%list;
     (Unicode.of_string "2024-" ++ fullwidth "0" ++ Unicode.of_string "2-29")%list;
     (Unicode.of_string "2024-02-0" ++ fullwidth "9")%list;
     (Unicode.of_string "2024-02-" ++ fullwidth "9")%list]
  = [true; true; false; false; false].
Proof.
  split; [exact unicode14_database |].
  split; [exact (validate_date_iff Unicode.unicode14 unicode14_database) |].
  split; vm_compute; reflexivity.
Defined.

(** ** The handler *)

Lemma in_required f :
  In f required_fields ->
  f = "name" \/ f = "email" \/ f = "service" \/ f = "date" \/ f = "time".
Proof. simpl. intuition. Qed.

Lemma store_fields_lookup bi (m : gmap string string) f :
  In f required_fields ->
  store_fields bi m !! f =
  if is_placeholder (getattr bi f "") then m !! f
  else Some (Py.strip (getattr bi f "")).
Proof.
  intros Hf. apply in_required in Hf. unfold store_fields.
  cbn [fold_left required_fields].
  repeat match goal with
         | |- context [Py.mem (Py.lower (Py.strip ?v)) bad_values] =>
             change (Py.mem (Py.lower (Py.strip v)) bad_values) with (is_placeholder v)
         end.
  destruct (is_placeholder (getattr bi "name" "")) eqn:E1,
           (is_placeholder (getattr bi "email" "")) eqn:E2,
           (is_placeholder (getattr bi "service" "")) eqn:E3,
           (is_placeholder (getattr bi "date" "")) eqn:E4,
           (is_placeholder (getattr bi "time" "")) eqn:E5;
    cbn [negb];
    decompose [or] Hf; subst f;
    rewrite ?E1, ?E2, ?E3, ?E4, ?E5; by simplify_map_eq.
Qed.

Lemma store_fields_other bi (m : gmap string string) k :
  ~ In k required_fields -> store_fields bi m !! k = m !! k.
Proof.
  intros Hk. unfold store_fields. cbn [fold_left required_fields].
  simpl in Hk.
  repeat match goal with
         | |- context [if ?b then _ else _] => destruct b
         end;
    rewrite ?lookup_insert_ne; intuition.
Qed.

Lemma prefix_iff w : forall s,
  String.prefix w s = true <-> exists post, s = w +:+ post.
Proof.
  induction w as [| c w IH]; intros s.
  - destruct s; simpl; split; eauto.
  - destruct s as [| c' s]; simpl.
    + split; [discriminate | intros [post H]; discriminate].
    + destruct (ascii_dec c c') as [-> | Hne].
      * rewrite IH. split; intros [post H]; exists post.
        -- now rewrite H.
        -- rewrite string_app_cons in H. congruence.
      * split; [discriminate |]. intros [post H]. rewrite string_app_cons in H. congruence.
Qed.

Lemma contains_iff w : forall s,
  Py.contains w s = true <-> exists pre post, s = pre +:+ w +:+ post.
Proof.
  induction s as [| c s IH]; cbn [Py.contains]; rewrite orb_true_iff, prefix_iff.
  - split.
    + intros [[post H] | H]; [| discriminate]. exists "", post. exact H.
    + intros (pre & post & H). left. destruct pre; [| discriminate].
      exists post. exact H.
  - rewrite IH. split.
    + intros [[post H] | (pre & post & H)].
      * exists "", post. exact H.
      * exists (String c pre), post. now rewrite H.
    + intros (pre & post & H). destruct pre as [| c' pre].
      * left. exists post. exact H.
      * right. exists pre, post. rewrite string_app_cons in H. congruence.
Qed.

Lemma is_booking_flow_iff m s :
  is_booking_flow m s = true <->
  (exists word, In word booking_keywords /\
                exists pre post, Py.lower m = pre +:+ word +:+ post) \/
  booking_in_progress s = Some true.
Proof.
  unfold is_booking_flow. rewrite orb_true_iff, existsb_exists.
  split; intros [H | H].
  - left. destruct H as (w & Hw & Hc). exists w. now rewrite <- contains_iff.
  - right. destruct (booking_in_progress s) as [[] |]; simpl in H; congruence.
  - left. destruct H as (w & Hw & Hc). exists w. now rewrite contains_iff.
  - right. now rewrite H.
Qed.

Lemma last_n_snoc {A} (l : list A) (x : A) n :
  last_n (S n) (l ++ [x])%list = (last_n n l ++ [x])%list.
Proof.
  unfold last_n. rewrite length_app. simpl.
  replace (length l + 1 - S n) with (length l - n) by lia.
  apply drop_app_le. lia.
Qed.

Lemma join_snoc sep (l : list string) x :
  l <> [] -> Py.join sep (l ++ [x])%list = Py.join sep l +:+ sep +:+ x.
Proof.
  induction l as [| y l IH]; [congruence |]. intros _.
  destruct l as [| z l].
  - reflexivity.
  - change (Py.join sep ((y :: z :: l) ++ [x])%list)
      with (y +:+ sep +:+ Py.join sep ((z :: l) ++ [x])%list).
    rewrite IH by discriminate.
    change (Py.join sep (y :: z :: l)) with (y +:+ sep +:+ Py.join sep (z :: l)).
    now rewrite !string_app_assoc.
Qed.

(** ** The order of the missing fields *)

Lemma missing_fields_out_of_order :
  missing_fields extraction_out_of_order = ["service"; "email"].
Proof. vm_compute. reflexivity. Qed.

(** C2, as stated, fails: with a placeholder service and a malformed email
    the prompt lists [service] before [email]. *)
Lemma missing_order_counterexample :
  1 < length (missing_fields extraction_out_of_order) /\
  follow_up (missing_fields extraction_out_of_order)
    = "Sure! To proceed, please provide your service, email." /\
  ~ sublist (missing_fields extraction_out_of_order) required_fields.
Proof.
  rewrite missing_fields_out_of_order. split; [simpl; lia |].
  split; [reflexivity |].
  unfold required_fields. intros H.
  repeat match goal with
         | H : sublist _ _ |- _ => inversion H; clear H; subst
         end.
Qed.

Lemma missing_fields_split (booking_info : BookingInfo.t) :
  missing_fields booking_info
  = (List.filter (fun field => is_placeholder (getattr booking_info field ""))
       required_fields
     ++ List.filter (fails_validation booking_info) ["date"; "time"; "email"])%list.
Proof.
  destruct booking_info as [n e s d t].
  unfold missing_fields, placeholder_fields, fails_validation, check_field.
  cbn [fold_left required_fields List.filter getattr String.eqb Ascii.eqb
       Bool.eqb BookingInfo.name BookingInfo.email BookingInfo.service
       BookingInfo.date BookingInfo.time].
  destruct (is_placeholder n), (is_placeholder e), (is_placeholder s),
    (is_placeholder d), (is_placeholder t),
    (validate_date d), (validate_time t), (is_valid_email e); reflexivity.
Qed.

Lemma missing_nil_no_placeholder bi field :
  missing_fields bi = [] -> In field required_fields ->
  is_placeholder (getattr bi field "") = false.
Proof.
  rewrite missing_fields_split. intros H Hf.
  apply app_eq_nil in H as [H _]. apply in_required in Hf.
  cbn [List.filter required_fields] in H.
  destruct (is_placeholder (getattr bi "name" "")) eqn:E1; [discriminate |].
  destruct (is_placeholder (getattr bi "email" "")) eqn:E2; [discriminate |].
  destruct (is_placeholder (getattr bi "service" "")) eqn:E3; [discriminate |].
  destruct (is_placeholder (getattr bi "date" "")) eqn:E4; [discriminate |].
  destruct (is_placeholder (getattr bi "time" "")) eqn:E5; [discriminate |].
  decompose [or] Hf; subst field; assumption.
Qed.

Lemma query_params_complete (s : session) :
  (forall field, In field required_fields -> is_Some (slots s !! field)) ->
  query_params s = Some (map (fun field => (field, slot s field)) required_fields).
Proof.
  intros H. unfold query_params, slot. cbn [mapM map required_fields].
  destruct (H "name") as [v1 E1]; [simpl; tauto |].
  destruct (H "email") as [v2 E2]; [simpl; tauto |].
  destruct (H "service") as [v3 E3]; [simpl; tauto |].
  destruct (H "date") as [v4 E4]; [simpl; tauto |].
  destruct (H "time") as [v5 E5]; [simpl; tauto |].
  rewrite E1, E2, E3, E4, E5. reflexivity.
Qed.

Lemma booking_turn_complete urljoin req history bi s :
  missing_fields bi = [] ->
  booking_turn urljoin req history bi s = Some (completed urljoin req history bi s).
Proof.
  intros Hmiss. unfold booking_turn. rewrite Hmiss.
  assert (Hstored : forall field, In field required_fields ->
            store_fields bi (slots s) !! field = Some (Py.strip (getattr bi field ""))).
  { intros f Hf. rewrite store_fields_lookup by assumption.
    now rewrite (missing_nil_no_placeholder bi f Hmiss Hf). }
  unfold booking_url. rewrite query_params_complete; cycle 1.
  { intros f Hf. simpl. rewrite Hstored by assumption. eauto. }
  unfold completed, reply_with, slot. cbn [map required_fields slots set_flag set_slots].
  rewrite !Hstored by (simpl; tauto). reflexivity.
Qed.

Lemma booking_turn_returns urljoin req history bi s :
  exists s' reply,
    booking_turn urljoin req history bi s = Some (s', reply) /\
    slots s' = store_fields bi (slots s) /\
    (missing_fields bi <> [] -> reply = follow_up (missing_fields bi)).
Proof.
  unfold booking_turn, reply_with.
  destruct (missing_fields bi) as [| f l].
  - destruct (booking_url _ _ _); eexists _, _; (split; [reflexivity |]);
      (split; [reflexivity |]); intros H; congruence.
  - eexists _, _. split; [reflexivity |]. split; [reflexivity |]. auto.
Qed.

Lemma field_valid bi :
  missing_fields bi = [] ->
  validate_date (BookingInfo.date bi) = true /\
  validate_time (BookingInfo.time bi) = true /\
  is_valid_email (BookingInfo.email bi) = true.
Proof.
  intros Hmiss.
  pose proof (missing_nil_no_placeholder bi "date" Hmiss) as Hd.
  pose proof (missing_nil_no_placeholder bi "time" Hmiss) as Ht.
  pose proof (missing_nil_no_placeholder bi "email" Hmiss) as He.
  rewrite missing_fields_split in Hmiss. apply app_eq_nil in Hmiss as [_ H].
  unfold fails_validation in H. cbn [List.filter String.eqb Ascii.eqb Bool.eqb] in H.
  rewrite Hd, Ht, He in H by (simpl; tauto). cbn [negb andb] in H.
  destruct (validate_date _); [| discriminate].
  destruct (validate_time _); [| discriminate].
  destruct (is_valid_email _); [| discriminate]. auto.
Qed.

(** Extracting the stored values once more finds nothing missing. *)
Lemma missing_fields_again bi1 bi2 :
  missing_fields bi1 = [] ->
  (forall field, In field required_fields ->
      getattr bi2 field "" = Py.strip (getattr bi1 field "")) ->
  missing_fields bi2 = [].
Proof.
  intros Hmiss Hsame.
  destruct (field_valid bi1 Hmiss) as (Hd & Ht & He).
  rewrite missing_fields_split.
  assert (Hp : forall field, In field required_fields ->
                 is_placeholder (getattr bi2 field "") = false).
  { intros f Hf. rewrite Hsame, is_placeholder_strip by assumption.
    now apply missing_nil_no_placeholder. }
  cbn [List.filter required_fields]. rewrite !Hp by (simpl; tauto).
  unfold fails_validation. cbn [List.filter String.eqb Ascii.eqb Bool.eqb].
  rewrite !Hp by (simpl; tauto).
  change (BookingInfo.date bi2) with (getattr bi2 "date" "").
  change (BookingInfo.time bi2) with (getattr bi2 "time" "").
  change (BookingInfo.email bi2) with (getattr bi2 "email" "").
  rewrite !Hsame by (simpl; tauto).
  change (getattr bi1 "date" "") with (BookingInfo.date bi1).
  change (getattr bi1 "time" "") with (BookingInfo.time bi1).
  change (getattr bi1 "email" "") with (BookingInfo.email bi1).
  rewrite (validate_date_strip _ Hd), (validate_time_strip _ Ht), Hd, Ht.
  rewrite (is_valid_email_strip _ He). reflexivity.
Qed.

(** ** What is stored and what the link carries *)

Lemma whitespace_is_space c : whitespace c = Py.is_space c.
Proof. destruct c as [[] [] [] [] [] [] [] []]; reflexivity. Qed.

Lemma lstrip_split s :
  exists before, s = before +:+ Py.lstrip s /\ all_chars Py.is_space before = true.
Proof.
  induction s as [| c s (before & E & H)]; [exists ""; auto |]. simpl.
  destruct (Py.is_space c) eqn:Hc.
  - exists (String c before). rewrite string_app_cons, <- E. simpl. now rewrite Hc, H.
  - exists "". auto.
Qed.

Lemma rstrip_split s :
  exists after, s = Py.rstrip s +:+ after /\ all_chars Py.is_space after = true.
Proof.
  induction s as [| c s (after & E & H)]; [exists ""; auto |]. cbn [Py.rstrip].
  destruct (Py.rstrip s) as [| c' r] eqn:Er.
  - rewrite string_app_nil_l in E. subst after.
    destruct (Py.is_space c) eqn:Hc.
    + exists (String c s). simpl. now rewrite Hc, H.
    + exists s. auto.
  - exists after. rewrite string_app_cons. now rewrite <- E.
Qed.

Lemma strip_trimmed raw : trimmed raw (Py.strip raw).
Proof.
  unfold Py.strip.
  destruct (lstrip_split raw) as (before & E1 & H1).
  destruct (rstrip_split (Py.lstrip raw)) as (after & E2 & H2).
  exists before, after. split; [now rewrite <- E2 |].
  split; [erewrite all_chars_impl; [reflexivity | | exact H1];
          intros c; now rewrite whitespace_is_space |].
  split; [erewrite all_chars_impl; [reflexivity | | exact H2];
          intros c; now rewrite whitespace_is_space |].
  split.
  - intros c rest E. rewrite whitespace_is_space.
    destruct (lstrip_head raw) as [H | (c' & s' & H & Hc')]; rewrite H in E.
    + discriminate.
    + destruct (rstrip_head c' s' Hc') as [r Hr]. rewrite Hr in E. congruence.
  - intros rest c E. rewrite whitespace_is_space.
    destruct (rstrip_tail (Py.lstrip raw)) as [H | (y & c' & H & Hc')]; rewrite H in E.
    + symmetry in E. now apply app_not_nil in E.
    + assert (String.length y = String.length rest).
      { apply (f_equal String.length) in E. rewrite !string_length_app in E.
        simpl in E. lia. }
      clear H. revert rest E H0. induction y as [| a y IH]; intros [| b rest] E Hl;
        simpl in Hl; try lia.
      * rewrite !string_app_nil_l in E. congruence.
      * rewrite !string_app_cons in E. injection E as _ E. apply (IH rest); [exact E | lia].
Qed.

Lemma quote_plus_char_spec c :
  Url.quote_plus_char c =
  if unreserved c then String c ""
  else if Ascii.eqb c " " then "+"
  else String.concat "" (map escaped (utf8_bytes c)).
Proof. destruct c as [[] [] [] [] [] [] [] []]; reflexivity. Qed.

Lemma quote_plus_encoded value : percent_encoded value (Url.quote_plus value).
Proof.
  induction value as [| c value IH]; [constructor |].
  cbn [Url.quote_plus]. rewrite quote_plus_char_spec.
  destruct (unreserved c) eqn:Hc.
  - rewrite string_app_cons, string_app_nil_l. now constructor.
  - destruct (Ascii.eqb c " ") eqn:Hb.
    + apply Ascii.eqb_eq in Hb. subst c. rewrite string_app_cons, string_app_nil_l.
      now constructor.
    + apply Ascii.eqb_neq in Hb. now constructor.
Qed.

Lemma urlencode_fields (v : string -> string) :
  Url.urlencode (map (fun field => (field, v field)) required_fields)
  = "name=" +:+ Url.quote_plus (v "name") +:+ "&email=" +:+ Url.quote_plus (v "email")
    +:+ "&service=" +:+ Url.quote_plus (v "service")
    +:+ "&date=" +:+ Url.quote_plus (v "date")
    +:+ "&time=" +:+ Url.quote_plus (v "time").
Proof.
  unfold Url.urlencode. cbn [map required_fields Py.join fst snd].
  change (Url.quote_plus "name") with "name".
  change (Url.quote_plus "email") with "email".
  change (Url.quote_plus "service") with "service".
  change (Url.quote_plus "date") with "date".
  change (Url.quote_plus "time") with "time".
  rewrite !string_app_assoc. reflexivity.
Qed.

(** the reply of the [except ValidationError] clause *)
Lemma located_reply errors names :
  located errors names ->
  mapM head errors ≫= schema_reply
  = Some ("Missing or invalid: " +:+ Py.join ", " names +:+ ". Please provide them.").
Proof.
  intros H.
  assert (Hhead : mapM head errors = Some (map LocStr names)).
  { induction H as [| loc name errors names (rest & ->) _ IH]; [reflexivity |].
    cbn [mapM map]. rewrite IH. reflexivity. }
  assert (Hstr : mapM str_item (map LocStr names) = Some names).
  { clear. induction names as [| name names IH]; [reflexivity |].
    cbn [mapM map]. rewrite IH. reflexivity. }
  rewrite Hhead. unfold schema_reply. simpl. rewrite Hstr. reflexivity.
Qed.

Lemma unlocated_reply errors :
  mapM head errors ≫= schema_reply = None <->
  exists loc, In loc errors /\ unlocated loc.
Proof.
  split.
  - intros H.
    assert (Hno : ~ exists names, located errors names).
    { intros [names Hloc]. rewrite (located_reply _ _ Hloc) in H. discriminate. }
    clear H. induction errors as [| loc errors IH].
    + exfalso. apply Hno. exists []. constructor.
    + destruct loc as [| [name | index] rest].
      * exists []. split; [now left | now left].
      * destruct IH as (loc & Hin & Hloc).
        -- intros [names Hloc]. apply Hno. exists (name :: names).
           constructor; eauto.
        -- exists loc. split; [now right | assumption].
      * exists (LocInt index :: rest). split; [now left | right; eauto].
  - intros (loc & Hin & Hloc).
    destruct (mapM head errors ≫= schema_reply) as [reply |] eqn:E; [| reflexivity].
    exfalso. destruct (mapM head errors) as [fields |] eqn:Hhead; [| discriminate].
    simpl in E. unfold schema_reply in E.
    destruct (mapM str_item fields) as [names |] eqn:Hstr; [| discriminate].
    clear E. revert fields names Hhead Hstr.
    induction errors as [| loc' errors IH]; intros fields names Hhead Hstr;
      [contradiction |].
    cbn [mapM] in Hhead.
    destruct (head loc') as [item |] eqn:Hitem; [| discriminate].
    destruct (mapM head errors) as [fields' |] eqn:Hhead'; [| discriminate].
    simpl in Hhead. injection Hhead as <-. cbn [mapM] in Hstr.
    destruct (str_item item) as [name |] eqn:Hname; [| discriminate].
    destruct (mapM str_item fields') as [names' |] eqn:Hstr'; [| discriminate].
    destruct Hin as [-> | Hin]; [| now apply (IH Hin fields' names')].
    destruct Hloc as [-> | (index & rest & ->)]; [discriminate |].
    simpl in Hitem. injection Hitem as <-. discriminate.
Qed.

Section Handler.

Variable booking_chain : string -> extraction.
Variable rag_chain : string -> option string.
Variable urljoin : string -> string -> string.

Lemma chat_booking req s :
  is_booking_flow (msg req) s = true ->
  chat booking_chain rag_chain urljoin req s
  = booking_branch booking_chain urljoin req
      (conversation_history s ++ [user_turn (msg req)])%list s.
Proof. intros H. unfold chat. now rewrite H. Qed.

Lemma chat_qa req s :
  is_booking_flow (msg req) s = false ->
  chat booking_chain rag_chain urljoin req s
  = qa_branch rag_chain req (conversation_history s ++ [user_turn (msg req)])%list s.
Proof. intros H. unfold chat. now rewrite H. Qed.

Lemma chat_extracted req s bi :
  is_booking_flow (msg req) s = true ->
  booking_chain (combined_input s (msg req)) = Extracted bi ->
  chat booking_chain rag_chain urljoin req s
  = booking_turn urljoin req (conversation_history s ++ [user_turn (msg req)])%list
      bi (set_flag true s).
Proof.
  intros Hflow Hx. rewrite chat_booking by assumption. unfold booking_branch.
  change (combined_input (set_flag true s) (msg req))
    with (combined_input s (msg req)).
  now rewrite Hx.
Qed.

(** C2, amended. On a booking turn that finds something missing, the prompt
    lists first the fields flagged by placeholder detection, in the fixed
    order name, email, service, date, time, and after them the fields
    flagged by validation alone, in the order date, time, email. *)
Theorem missing_fields_order req s bi :
  is_booking_flow (msg req) s = true ->
  booking_chain (combined_input s (msg req)) = Extracted bi ->
  missing_fields bi <> [] ->
  let flagged :=
    List.filter (fun field => is_placeholder (getattr bi field "")) required_fields in
  let invalid := List.filter (fails_validation bi) ["date"; "time"; "email"] in
  missing_fields bi = (flagged ++ invalid)%list /\
  exists s',
    chat booking_chain rag_chain urljoin req s
    = Some (s', "Sure! To proceed, please provide your "
                +:+ Py.join ", " (flagged ++ invalid)%list +:+ ".").
Proof.
  intros Hflow Hx Hmiss flagged invalid.
  split; [apply missing_fields_split |].
  rewrite (chat_extracted req s bi Hflow Hx).
  destruct (booking_turn_returns urljoin req
              (conversation_history s ++ [user_turn (msg req)])%list bi (set_flag true s))
    as (s' & reply & -> & _ & Hreply).
  exists s'. rewrite (Hreply Hmiss), missing_fields_split. reflexivity.
Qed.

(** C5. When the extractor returns, each of the five slots whose extracted
    value is no placeholder is overwritten with that value without the
    whitespace at its two ends, in its own case, whether or not it passes
    validation; the other slots keep what they held. *)
Theorem slots_overwritten req s bi :
  is_booking_flow (msg req) s = true ->
  booking_chain (combined_input s (msg req)) = Extracted bi ->
  exists s' reply,
    chat booking_chain rag_chain urljoin req s = Some (s', reply) /\
    forall field, In field required_fields ->
      if is_placeholder (getattr bi field "") then slots s' !! field = slots s !! field
      else exists value,
             slots s' !! field = Some value /\ trimmed (getattr bi field "") value.
Proof.
  intros Hflow Hx. rewrite (chat_extracted req s bi Hflow Hx).
  destruct (booking_turn_returns urljoin req
              (conversation_history s ++ [user_turn (msg req)])%list bi (set_flag true s))
    as (s' & reply & -> & Hs & _).
  exists s', reply. split; [reflexivity |].
  intros f Hf. rewrite Hs, store_fields_lookup by assumption.
  destruct (is_placeholder (getattr bi f "")); [reflexivity |].
  eexists. split; [reflexivity | apply strip_trimmed].
Qed.




(** C10. On a Q&A turn the generator is called on the rendering of the last
    six turns of the history, which ends with the line [user: msg] of the
    message just appended, followed by one more line [user: msg]. *)
Theorem qa_query_repeats_message req s :
  is_booking_flow (msg req) s = false ->
  let history := (conversation_history s ++ [user_turn (msg req)])%list in
  let query := full_input history (msg req) in
  let line := "user: " +:+ msg req in
  let earlier := map render (last_n 5 (conversation_history s)) in
  chat booking_chain rag_chain urljoin req s
  = (answer ← rag_chain query; reply_with history s answer) /\
  query = Py.join newline (earlier ++ [line])%list +:+ newline +:+ line /\
  length earlier <= 5 /\
  exists before, query = before +:+ line +:+ newline +:+ line /\
                 (before = "" \/ exists lines, before = lines +:+ newline).
Proof.
  intros Hflow history query line earlier.
  assert (Hq : query = Py.join newline (earlier ++ [line])%list +:+ newline +:+ line).
  { unfold query, full_input, history. rewrite last_n_snoc, map_app. reflexivity. }
  split; [now rewrite chat_qa |]. split; [exact Hq |]. split.
  - unfold earlier, last_n. rewrite length_map, length_drop. lia.
  - rewrite Hq. destruct earlier as [| l ls] eqn:E.
    + exists "". split; [reflexivity | now left].
    + rewrite join_snoc by discriminate.
      exists (Py.join newline (l :: ls) +:+ newline). split.
      * now rewrite !string_app_assoc.
      * right. eauto.
Qed.

End Handler.


(** ** The properties at sample inputs *)

Lemma missing_fields_order_witness :
  is_booking_flow (msg booking_request) empty_session = true /\
  missing_fields extraction_out_of_order <> [] /\
  missing_fields extraction_out_of_order = ["service"; "email"] /\
  exists s',
    chat (fun _ => Extracted extraction_out_of_order) sample_rag sample_urljoin
      booking_request empty_session
    = Some (s', "Sure! To proceed, please provide your service, email.").
Proof.
  split; [reflexivity |]. split; [vm_compute; discriminate |].
  apply (missing_fields_order (fun _ => Extracted extraction_out_of_order)
           sample_rag sample_urljoin booking_request empty_session
           extraction_out_of_order);
    [reflexivity | reflexivity | vm_compute; discriminate].
Defined.

Lemma slots_overwritten_witness :
  is_booking_flow (msg booking_request) scenario_session = true /\
  (exists s' reply,
    chat (fun _ => Extracted partial_extraction) sample_rag sample_urljoin
      booking_request scenario_session = Some (s', reply) /\
    forall field, In field required_fields ->
      if is_placeholder (getattr partial_extraction field "")
      then slots s' !! field = slots scenario_session !! field
      else exists value,
             slots s' !! field = Some value /\
             trimmed (getattr partial_extraction field "") value) /\
  map (fun field => getattr partial_extraction field "") required_fields
  = ["Unknown"; "alice@mail.com"; " Therapy "; "tomorrow"; "14:30"] /\
  validate_date "tomorrow" = false /\
  (fun r => map (fun field => slots r.1 !! field) required_fields) <$>
    chat (fun _ => Extracted partial_extraction) sample_rag sample_urljoin
      booking_request scenario_session
  = Some [Some "Alice"; Some "alice@mail.com"; Some "Therapy"; Some "tomorrow";
          Some "14:30"].
Proof.
  split; [reflexivity |]. split.
  - apply (slots_overwritten (fun _ => Extracted partial_extraction)
             sample_rag sample_urljoin booking_request scenario_session
             partial_extraction); reflexivity.
  - split; [| split]; vm_compute; reflexivity.
Defined.




(** the scenario of the specification: the link that is handed out *)
Example scenario_link :
  snd <$> chat (fun _ => Extracted complete_extraction) sample_rag sample_urljoin
            scenario_request scenario_session
  = Some (link_reply
      "http://localhost:8080/book?name=Alice&email=alice%40mail.com&service=Therapy&date=2025-03-10&time=14%3A30").
Proof. vm_compute. reflexivity. Qed.

Example urlencode_blank_and_slash :
  Url.urlencode [("name", "Alice Smith"); ("service", "Art/Play")]
  = "name=Alice+Smith&service=Art%2FPlay".
Proof. vm_compute. reflexivity. Qed.


Lemma qa_query_repeats_message_witness :
  is_booking_flow (msg question_request) empty_session = false /\
  full_input [user_turn (msg question_request)] (msg question_request)
  = "user: What services do you offer?" +:+ newline
    +:+ "user: What services do you offer?".
Proof.
  split; [reflexivity |].
  apply (proj1 (proj2 (qa_query_repeats_message (fun _ => Failure) sample_rag
                         sample_urljoin question_request empty_session eq_refl))).
Defined.


(** * Further properties of the program *)

(** ** [validate_time] *)

(** X1. Whatever the Unicode database, [validate_time] accepts exactly the
    strings [H:M] where [H] is written as an hour ([hour_numeral]) with a
    value up to 23 and [M] as a minute ([minute_numeral]) with a value up to
    59; neither needs its leading zero. A lone digit, and the second of two
    digits but for an hour from 20 to 23, may be any decimal digit of
    Unicode; every other digit is ASCII. On a string of the alphabet of the
    handler this is the [validate_time] the handler calls. *)
Theorem validate_time_iff (decimal : N -> option Z) :
  Unicode.database decimal ->
  (forall t : Unicode.str,
      Unicode.validate_time decimal t = true <-> accepted_time decimal t) /\
  (forall t : string,
      validate_time t = Unicode.validate_time decimal (Unicode.of_string t)).
Proof.
  intros Hdb. split.
  - intros t. split.
    + now apply validate_time_unicode_accepted.
    + now apply accepted_time_unicode_valid.
  - intros t. now apply validate_time_latin1.
Qed.

Lemma validate_time_iff_witness :
  Unicode.database Unicode.unicode14 /\
  ((forall t : Unicode.str,
       Unicode.validate_time Unicode.unicode14 t = true <->
       accepted_time Unicode.unicode14 t) /\
   (forall t : string,
       validate_time t
       = Unicode.validate_time Unicode.unicode14 (Unicode.of_string t))) /\
  map validate_time ["14:30"; "9:5"; "23:59"; "24:00"; "12:60"]
  = [true; true; true; false; false] /\
  map (Unicode.validate_time Unicode.unicode14)
    [(Unicode.of_string "1" ++ fullwidth "2" ++ Unicode.of_string ":30")%list;
     (fullwidth "7" ++ Unicode.of_string ":3" ++ fullwidth "0")%list;
     (fullwidth "2" ++ Unicode.of_string "3:59")%list;
     (Unicode.of_string "2" ++ fullwidth "2" ++ Unicode.of_string ":30")%list;
     (Unicode.of_string "12:" ++ fullwidth "3" ++ Unicode.of_string "0")%list]
  = [true; true; false; false; false].
Proof.
  split; [exact unicode14_database |].
  split; [exact (validate_time_iff Unicode.unicode14 unicode14_database) |].
  split; vm_compute; reflexivity.
Defined.

(** ** [is_valid_email], the line feed included *)

(** X2. [is_valid_email] accepts exactly the addresses [local@domain.tld]
    with an alphanumeric last segment, and each of them followed by one line
    feed. *)
Theorem is_valid_email_full (s : string) :
  is_valid_email s = true <->
  email_shape alnum s \/
  exists body, s = body +:+ newline /\ email_shape alnum body.
Proof.
  rewrite is_valid_email_iff. split.
  - intros (body & rest & -> & He & Hs).
    apply at_end_cases in He as [-> | ->].
    + left. now rewrite string_app_nil_r.
    + right. eauto.
  - intros [Hs | (body & -> & Hs)].
    + exists s, "". rewrite string_app_nil_r. auto.
    + exists body, newline. auto.
Qed.

(** ** What [missing_fields] holds *)

Lemma fails_validation_iff bi field :
  In field ["date"; "time"; "email"] /\ fails_validation bi field = true <->
  is_placeholder (getattr bi field "") = false /\ invalid_field bi field.
Proof.
  unfold fails_validation, invalid_field. split.
  - intros [Hin H]. apply andb_true_iff in H as [Hp Hv].
    apply negb_true_iff in Hp, Hv. split; [assumption |].
    simpl in Hin. decompose [or] Hin; try contradiction; subst field;
      cbn [String.eqb Ascii.eqb Bool.eqb] in Hv; tauto.
  - intros [Hp Hv]. rewrite Hp.
    decompose [or and] Hv; subst field;
      cbn [String.eqb Ascii.eqb Bool.eqb negb andb];
      (split; [simpl; tauto |]); now apply negb_true_iff.
Qed.

Lemma missing_fields_In bi field :
  In field (missing_fields bi) <->
  (In field required_fields /\ is_placeholder (getattr bi field "") = true) \/
  (is_placeholder (getattr bi field "") = false /\ invalid_field bi field).
Proof.
  rewrite missing_fields_split, in_app_iff, !filter_In, fails_validation_iff.
  reflexivity.
Qed.

Lemma invalid_field_required bi field : invalid_field bi field -> In field required_fields.
Proof. unfold invalid_field. intros H. decompose [or and] H; subst; simpl; tauto. Qed.

Lemma missing_fields_NoDup bi : List.NoDup (missing_fields bi).
Proof.
  rewrite missing_fields_split.
  destruct bi as [n e s d t].
  unfold fails_validation.
  cbn [required_fields List.filter getattr String.eqb Ascii.eqb
       Bool.eqb BookingInfo.name BookingInfo.email BookingInfo.service
       BookingInfo.date BookingInfo.time].
  destruct (is_placeholder n), (is_placeholder e), (is_placeholder s),
    (is_placeholder d), (is_placeholder t),
    (validate_date d), (validate_time t), (is_valid_email e);
    cbn [negb andb app];
    repeat (constructor; [simpl; intuition discriminate |]); constructor.
Qed.

(** X3. A field is listed as missing exactly when it is one of the five and
    its value is a placeholder or fails the validator of the field; no field
    is listed twice, so the list has at most five entries. *)
Theorem missing_fields_membership (bi : BookingInfo.t) :
  (forall field,
      In field (missing_fields bi) <->
      In field required_fields /\
      (is_placeholder (getattr bi field "") = true \/ invalid_field bi field)) /\
  List.NoDup (missing_fields bi) /\
  length (missing_fields bi) <= 5.
Proof.
  split; [| split].
  - intros field. rewrite missing_fields_In. split.
    + intros [[Hin Hp] | [Hp Hv]]; [tauto |].
      split; [now apply (invalid_field_required bi) | tauto].
    + intros [Hin [Hp | Hv]]; [tauto |].
      destruct (is_placeholder (getattr bi field "")); tauto.
  - apply missing_fields_NoDup.
  - change 5 with (length required_fields).
    apply (NoDup_incl_length (missing_fields_NoDup bi)).
    intros f Hf. apply missing_fields_In in Hf as [[Hin _] | [_ Hv]];
      [assumption | now apply (invalid_field_required bi)].
Qed.

(** ** The turns of [chat] *)

(** the four ways in which [chat] returns *)
Lemma chat_cases booking_chain rag_chain urljoin req s s' reply :
  chat booking_chain rag_chain urljoin req s = Some (s', reply) ->
  let history := (conversation_history s ++ [user_turn (msg req)])%list in
  (is_booking_flow (msg req) s = false /\
   s' = save_memory (history ++ [assistant_turn reply])%list s) \/
  (is_booking_flow (msg req) s = true /\
   ((exists bi,
        booking_chain (combined_input s (msg req)) = Extracted bi /\
        missing_fields bi <> [] /\ reply = follow_up (missing_fields bi) /\
        s' = save_memory (history ++ [assistant_turn reply])%list
               (set_slots (store_fields bi (slots s)) (set_flag true s))) \/
    (exists bi,
        booking_chain (combined_input s (msg req)) = Extracted bi /\
        missing_fields bi = [] /\
        (s', reply) = completed urljoin req history bi (set_flag true s)) \/
    ((forall bi, booking_chain (combined_input s (msg req)) <> Extracted bi) /\
     s' = save_memory (history ++ [assistant_turn reply])%list (set_flag true s)))).
Proof.
  intros H history. unfold chat in H. fold history in H.
  destruct (is_booking_flow (msg req) s) eqn:Hflow.
  - right. split; [reflexivity |]. unfold booking_branch in H.
    change (combined_input (set_flag true s) (msg req))
      with (combined_input s (msg req)) in H.
    destruct (booking_chain (combined_input s (msg req))) as [bi | errors |] eqn:Hx.
    + destruct (missing_fields bi) as [| f l] eqn:Hmiss.
      * right. left. exists bi. rewrite booking_turn_complete in H by assumption.
        split; [reflexivity |]. split; [assumption |].
        injection H as <- <-. reflexivity.
      * left. exists bi. unfold booking_turn, reply_with in H. rewrite Hmiss in H.
        injection H as <- <-. rewrite Hmiss.
        split; [reflexivity |]. split; [discriminate |]. auto.
    + right. right. split; [discriminate |].
      destruct (mapM head errors) as [fields |]; simpl in H; [| discriminate].
      destruct (schema_reply fields); simpl in H; [| discriminate].
      unfold reply_with in H. injection H as <- <-. reflexivity.
    + right. right. split; [discriminate |].
      unfold reply_with in H. injection H as <- <-. reflexivity.
  - left. split; [reflexivity |]. unfold qa_branch in H.
    destruct (rag_chain _); simpl in H; [| discriminate].
    unfold reply_with in H. injection H as <- <-. reflexivity.
Qed.

Lemma chat_history booking_chain rag_chain urljoin req s s' reply :
  chat booking_chain rag_chain urljoin req s = Some (s', reply) ->
  conversation_history s'
  = (conversation_history s ++ [user_turn (msg req); assistant_turn reply])%list.
Proof.
  intros H. apply chat_cases in H. cbv zeta in H.
  destruct H as [[_ ->] | [_ [(bi & _ & _ & _ & ->) | [(bi & _ & _ & H) | [_ ->]]]]];
    try (simpl; rewrite <- app_assoc; reflexivity).
  unfold completed in H. injection H as -> ->. simpl. now rewrite <- app_assoc.
Qed.


Lemma missing_nil_iff bi : missing_fields bi = [] <-> extraction_passes bi.
Proof.
  split.
  - intros H. split; [intros f Hf; now apply missing_nil_no_placeholder |].
    now apply field_valid.
  - intros (Hp & Hd & Ht & He). rewrite missing_fields_split.
    unfold fails_validation.
    cbn [required_fields List.filter String.eqb Ascii.eqb Bool.eqb].
    rewrite !Hp by (simpl; tauto). rewrite Hd, Ht, He. reflexivity.
Qed.

Lemma booking_turn_missing urljoin req history bi s :
  missing_fields bi <> [] ->
  booking_turn urljoin req history bi s
  = Some (save_memory (history ++ [assistant_turn (follow_up (missing_fields bi))])%list
            (set_slots (store_fields bi (slots s)) s),
          follow_up (missing_fields bi)).
Proof.
  intros H. unfold booking_turn, reply_with.
  destruct (missing_fields bi); [congruence | reflexivity].
Qed.


Lemma valid_date_not_placeholder d :
  validate_date d = true -> is_placeholder d = false.
Proof.
  intros H. unfold is_placeholder. rewrite (validate_date_strip _ H).
  apply validate_date_shape in H as (Y & M & D & -> & HY & _).
  destruct (numeral_first _ _ _ HY) as (c & Y' & -> & Hc).
  rewrite string_app_cons. cbn [Py.lower].
  apply digit_cases in Hc. simpl in Hc.
  decompose [or] Hc; try contradiction; subst c; reflexivity.
Qed.

(** X7. Validation reads the extracted value as it is, storing strips it: a
    date that is valid once stripped, but was extracted with whitespace around
    it, is asked for again although the stored date is valid. *)
Theorem padded_date_missing_yet_stored booking_chain rag_chain urljoin req s bi :
  is_booking_flow (msg req) s = true ->
  booking_chain (combined_input s (msg req)) = Extracted bi ->
  validate_date (Py.strip (BookingInfo.date bi)) = true ->
  Py.strip (BookingInfo.date bi) <> BookingInfo.date bi ->
  exists s' reply,
    chat booking_chain rag_chain urljoin req s = Some (s', reply) /\
    In "date" (missing_fields bi) /\
    reply = follow_up (missing_fields bi) /\
    booking_in_progress s' = Some true /\
    slots s' !! "date" = Some (Py.strip (BookingInfo.date bi)) /\
    validate_date (slot s' "date") = true.
Proof.
  intros Hflow Hx Hvalid Hpad.
  assert (Hp : is_placeholder (getattr bi "date" "") = false).
  { change (getattr bi "date" "") with (BookingInfo.date bi).
    rewrite <- is_placeholder_strip. now apply valid_date_not_placeholder. }
  assert (Hraw : validate_date (BookingInfo.date bi) = false).
  { destruct (validate_date (BookingInfo.date bi)) eqn:E; [| reflexivity].
    apply validate_date_strip in E. contradiction. }
  assert (Hin : In "date" (missing_fields bi)).
  { apply missing_fields_In. right. split; [assumption |]. left. auto. }
  rewrite (chat_extracted booking_chain rag_chain urljoin req s bi Hflow Hx).
  rewrite booking_turn_missing by (intros E; rewrite E in Hin; contradiction).
  eexists _, _. split; [reflexivity |]. split; [assumption |].
  split; [reflexivity |]. split; [reflexivity |].
  assert (Hs : store_fields bi (slots s) !! "date" = Some (Py.strip (BookingInfo.date bi))).
  { rewrite store_fields_lookup by (simpl; tauto). now rewrite Hp. }
  split; [exact Hs |]. unfold slot. simpl. now rewrite Hs.
Qed.

(** ** What holds of every session the handlers reach *)

Lemma store_fields_clean bi (m : gmap string string) :
  (forall k v, m !! k = Some v -> clean_slot k v) ->
  forall k v, store_fields bi m !! k = Some v -> clean_slot k v.
Proof.
  intros Hm k v H.
  destruct (decide (In k required_fields)) as [Hk | Hk].
  - rewrite store_fields_lookup in H by assumption.
    destruct (is_placeholder (getattr bi k "")) eqn:Hp; [now apply Hm |].
    injection H as <-. split; [assumption |]. split; [apply strip_idem |].
    now rewrite is_placeholder_strip.
  - rewrite store_fields_other in H by assumption. now apply Hm.
Qed.

Lemma chat_slots booking_chain rag_chain urljoin req s s' reply :
  chat booking_chain rag_chain urljoin req s = Some (s', reply) ->
  slots s' = slots s \/ exists bi, slots s' = store_fields bi (slots s).
Proof.
  intros H. apply chat_cases in H. cbv zeta in H.
  destruct H as [[_ ->] | [_ [(bi & _ & _ & _ & ->) | [(bi & _ & _ & H) | [_ ->]]]]];
    try (left; reflexivity); try (right; exists bi; reflexivity).
  unfold completed in H. injection H as -> _. right. exists bi. reflexivity.
Qed.

(** X8. In every session reached from the empty one by turns that returned
    and by logouts, a stored slot is one of the five fields and its value is
    non-empty, stripped and no placeholder. *)
Theorem stored_slots_clean (s : session) :
  reachable s ->
  forall field value, slots s !! field = Some value ->
    In field required_fields /\ Py.strip value = value /\
    is_placeholder value = false /\ value <> "".
Proof.
  intros Hr.
  assert (H : forall k v, slots s !! k = Some v -> clean_slot k v).
  { induction Hr as [| chain rag urljoin req s s' reply Hr IH Hchat | s Hr IH].
    - intros k v H. simpl in H. rewrite lookup_empty in H. discriminate.
    - apply chat_slots in Hchat as [-> | [bi ->]]; [exact IH |].
      now apply store_fields_clean.
    - intros k v H. simpl in H. rewrite lookup_empty in H. discriminate. }
  intros k v Hk. destruct (H k v Hk) as (H1 & H2 & H3).
  repeat split; try assumption. intros ->. discriminate H3.
Qed.

Lemma completed_complete urljoin req history bi s :
  missing_fields bi = [] ->
  complete_and_valid (completed urljoin req history bi s).1.
Proof.
  intros Hmiss. unfold completed, complete_and_valid, slot. simpl.
  assert (Hstored : forall field, In field required_fields ->
            store_fields bi (slots s) !! field = Some (Py.strip (getattr bi field ""))).
  { intros f Hf. rewrite store_fields_lookup by assumption.
    now rewrite (missing_nil_no_placeholder bi f Hmiss Hf). }
  destruct (field_valid bi Hmiss) as (Hd & Ht & He).
  split; [intros f Hf; rewrite Hstored by assumption; eauto |].
  rewrite !Hstored by (simpl; tauto). simpl.
  change (getattr bi "date" "") with (BookingInfo.date bi).
  change (getattr bi "time" "") with (BookingInfo.time bi).
  change (getattr bi "email" "") with (BookingInfo.email bi).
  rewrite (validate_date_strip _ Hd), (validate_time_strip _ Ht).
  auto using is_valid_email_strip.
Qed.

(** X9. In every such session, a flag that is [False] means that a booking
    was completed: the five slots are present and the stored date, time and
    email pass their validators. *)
Theorem idle_after_booking_is_complete (s : session) :
  reachable s ->
  booking_in_progress s = Some false ->
  (forall field, In field required_fields -> is_Some (slots s !! field)) /\
  validate_date (slot s "date") = true /\
  validate_time (slot s "time") = true /\
  is_valid_email (slot s "email") = true.
Proof.
  intros Hr. change (booking_in_progress s = Some false -> complete_and_valid s).
  induction Hr as [| chain rag urljoin req s s' reply Hr IH Hchat | s Hr IH].
  - discriminate.
  - apply chat_cases in Hchat. cbv zeta in Hchat.
    destruct Hchat
      as [[_ ->] | [_ [(bi & _ & _ & _ & ->) | [(bi & _ & Hmiss & H) | [_ ->]]]]];
      try (simpl; discriminate).
    + exact IH.
    + intros _. replace s' with (s', reply).1 by reflexivity. rewrite H.
      now apply completed_complete.
  - discriminate.
Qed.

Lemma alternating_app l : forall l',
  alternating l -> alternating l' -> alternating (l ++ l')%list.
Proof.
  induction l as [l IH] using (induction_ltof1 _ (@length turn)).
  unfold ltof in IH. intros l' Hl Hl'.
  destruct l as [| u [| a rest]]; simpl in *; try tauto.
  destruct Hl as (Hu & Ha & Hrest). repeat split; try assumption.
  apply IH; [simpl; lia | assumption | assumption].
Qed.

(** X10. In every such session the history is a sequence of pairs, a user
    turn and the assistant turn that answers it. *)
Theorem history_alternates (s : session) :
  reachable s ->
  alternating (conversation_history s) /\
  Nat.Even (length (conversation_history s)).
Proof.
  intros Hr.
  induction Hr as [| chain rag urljoin req s s' reply Hr [IH1 IH2] Hchat | s Hr IH].
  - split; [exact I | exists 0; reflexivity].
  - apply chat_history in Hchat. rewrite Hchat. split.
    + apply alternating_app; [assumption |]. simpl. auto.
    + rewrite length_app. simpl. destruct IH2 as [n ->]. exists (S n). lia.
  - split; [exact I | exists 0; reflexivity].
Qed.

(** ** The query string of the link *)

Lemma quote_plus_char_chars c : all_chars value_char (Url.quote_plus_char c) = true.
Proof. destruct c as [[] [] [] [] [] [] [] []]; reflexivity. Qed.

Lemma quote_plus_chars s : all_chars value_char (Url.quote_plus s) = true.
Proof.
  induction s as [| c s IH]; [reflexivity |]. cbn [Url.quote_plus].
  now rewrite all_chars_app, quote_plus_char_chars, IH.
Qed.

Lemma value_query_char s : all_chars value_char s = true -> all_chars query_char s = true.
Proof.
  apply all_chars_impl. intros c H. unfold query_char. now rewrite H.
Qed.

Lemma urlencode_chars q : all_chars query_char (Url.urlencode q) = true.
Proof.
  unfold Url.urlencode.
  induction q as [| [k v] q IH]; [reflexivity |].
  assert (Hkv : all_chars query_char
                  (Url.quote_plus k +:+ "=" +:+ Url.quote_plus v) = true).
  { rewrite !all_chars_app.
    rewrite (value_query_char (Url.quote_plus k)) by apply quote_plus_chars.
    rewrite (value_query_char (Url.quote_plus v)) by apply quote_plus_chars.
    reflexivity. }
  destruct q as [| kv q]; [exact Hkv |].
  change (all_chars query_char
            ((Url.quote_plus k +:+ "=" +:+ Url.quote_plus v) +:+ "&" +:+
             Py.join "&" (map (fun kv => Url.quote_plus kv.1 +:+ "=" +:+ Url.quote_plus kv.2)
                            (kv :: q))) = true).
  rewrite (all_chars_app _ (Url.quote_plus k +:+ "=" +:+ Url.quote_plus v)), Hkv.
  rewrite all_chars_app, IH. reflexivity.
Qed.

(** X11. What [quote_plus] writes is made of ASCII letters, digits and
    [_.-~+%] only, so that a query string has no other characters than these
    and the [=] and [&] that [urlencode] puts between keys and values: no
    blank, no quote, no angle bracket. *)
Theorem urlencode_safe_chars :
  (forall s, all_chars value_char (Url.quote_plus s) = true) /\
  (forall q, all_chars query_char (Url.urlencode q) = true) /\
  forallb (fun c => negb (query_char c)) [" "; "'"; "034"; "<"; ">"; "#"; "?"]%char
  = true.
Proof.
  split; [apply quote_plus_chars |]. split; [apply urlencode_chars | reflexivity].
Qed.

Lemma unquote_quote_char c r :
  unquote_char (Url.quote_plus_char c +:+ r) = Some (c, r).
Proof. destruct c as [[] [] [] [] [] [] [] []]; reflexivity. Qed.

Lemma quote_plus_cons c s :
  Url.quote_plus (String c s) = Url.quote_plus_char c +:+ Url.quote_plus s.
Proof. reflexivity. Qed.

Lemma quote_plus_char_first c :
  exists a r, Url.quote_plus_char c = String a r /\ value_char a = true.
Proof.
  pose proof (quote_plus_char_chars c) as H.
  destruct (Url.quote_plus_char c) as [| a r] eqn:E.
  - pose proof (unquote_quote_char c "") as U. rewrite E in U. discriminate U.
  - simpl in H. apply andb_true_iff in H as [H _]. eauto.
Qed.

(** two quoted values, each followed by the same kind of end (nothing, or a
    separator), are the same value *)
Lemma quote_plus_delimited a : forall b X Y,
  (X = "" /\ Y = "") \/
  (exists X' Y', X = String "&" X' /\ Y = String "&" Y') ->
  Url.quote_plus a +:+ X = Url.quote_plus b +:+ Y -> a = b /\ X = Y.
Proof.
  assert (Hstart : forall c s X Z,
            (Z = "" \/ exists Z', Z = String "&" Z') ->
            Url.quote_plus (String c s) +:+ X <> Z).
  { intros c s X Z HZ E. rewrite quote_plus_cons in E.
    destruct (quote_plus_char_first c) as (x & r & Ex & Hx).
    rewrite Ex, !string_app_cons in E.
    destruct HZ as [-> | [Z' ->]]; [discriminate |].
    injection E as -> _. discriminate Hx. }
  induction a as [| c a IH]; intros b X Y HXY E.
  - destruct b as [| c' b].
    + split; [reflexivity | exact E].
    + exfalso. symmetry in E. simpl in E. rewrite string_app_nil_l in E. revert E.
      apply Hstart. destruct HXY as [[-> _] | (X' & _ & -> & _)]; eauto.
  - destruct b as [| c' b].
    + exfalso. simpl in E. rewrite (string_app_nil_l Y) in E. revert E.
      apply Hstart. destruct HXY as [[_ ->] | (_ & Y' & _ & ->)]; eauto.
    + rewrite !quote_plus_cons, !string_app_assoc in E.
      pose proof (unquote_quote_char c (Url.quote_plus a +:+ X)) as U.
      rewrite E, unquote_quote_char in U. injection U as -> E'.
      destruct (IH b X Y HXY (eq_sym E')) as [-> ->]. auto.
Qed.

Lemma quote_plus_injective a b : Url.quote_plus a = Url.quote_plus b -> a = b.
Proof.
  intros E. apply (quote_plus_delimited a b "" ""); [auto |].
  now rewrite !string_app_nil_r.
Qed.

(** X4. A turn that returns appends exactly two turns to the history: the
    message of the user and the reply. *)
Theorem chat_appends_two_turns booking_chain rag_chain urljoin req s s' reply :
  chat booking_chain rag_chain urljoin req s = Some (s', reply) ->
  conversation_history s'
  = (conversation_history s ++ [user_turn (msg req); assistant_turn reply])%list /\
  length (conversation_history s') = length (conversation_history s) + 2.
Proof.
  intros H. apply chat_history in H. split; [exact H |].
  rewrite H, length_app. reflexivity.
Qed.

Lemma field_delimited k a b X Y :
  (X = "" /\ Y = "") \/
  (exists X' Y', X = String "&" X' /\ Y = String "&" Y') ->
  (Url.quote_plus k +:+ "=" +:+ Url.quote_plus a) +:+ X
  = (Url.quote_plus k +:+ "=" +:+ Url.quote_plus b) +:+ Y ->
  a = b /\ X = Y.
Proof.
  intros HXY E. rewrite !string_app_assoc in E.
  apply String.app_inj in E. apply String.app_inj in E.
  now apply quote_plus_delimited.
Qed.

(** X12. The query string of the link determines the five values: two
    assignments of values to the five fields that give the same query string
    are the same. *)
Theorem booking_query_injective (v w : string -> string) :
  Url.urlencode (map (fun field => (field, v field)) required_fields)
  = Url.urlencode (map (fun field => (field, w field)) required_fields) ->
  forall field, In field required_fields -> v field = w field.
Proof.
  unfold Url.urlencode. cbn [map required_fields Py.join fst snd]. intros E.
  apply field_delimited in E as [E1 E]; [| right; eexists _, _; split; reflexivity].
  apply String.app_inj in E.
  apply field_delimited in E as [E2 E]; [| right; eexists _, _; split; reflexivity].
  apply String.app_inj in E.
  apply field_delimited in E as [E3 E]; [| right; eexists _, _; split; reflexivity].
  apply String.app_inj in E.
  apply field_delimited in E as [E4 E]; [| right; eexists _, _; split; reflexivity].
  apply String.app_inj in E.
  rewrite <- (string_app_nil_r (_ +:+ "=" +:+ Url.quote_plus (v "time"))) in E.
  rewrite <- (string_app_nil_r (_ +:+ "=" +:+ Url.quote_plus (w "time"))) in E.
  apply field_delimited in E as [E5 _]; [| now left].
  intros f Hf. simpl in Hf. decompose [or] Hf; try contradiction; subst f; assumption.
Qed.

(** ** The input of the extractor *)

Lemma join_In sep x l :
  In x l -> exists pre post, Py.join sep l = pre +:+ x +:+ post.
Proof.
  induction l as [| y l IH]; [contradiction |]. intros [-> | Hin].
  - destruct l as [| z l].
    + exists "", "". simpl. now rewrite string_app_nil_r.
    + exists "", (sep +:+ Py.join sep (z :: l)). reflexivity.
  - destruct (IH Hin) as (pre & post & E). destruct l as [| z l]; [contradiction |].
    exists (y +:+ sep +:+ pre), post.
    change (Py.join sep (y :: z :: l)) with (y +:+ sep +:+ Py.join sep (z :: l)).
    now rewrite E, !string_app_assoc.
Qed.

(** X13. The input of the extractor carries every stored non-empty slot, as
    the sentence [My field is value.], before the message; with no such slot
    it is a blank and the message. *)
Theorem combined_input_carries_slots (s : session) (message : string) :
  (forall field value,
      In field required_fields -> slots s !! field = Some value -> value <> "" ->
      exists pre post,
        combined_input s message
        = pre +:+ ("My " +:+ field +:+ " is " +:+ value +:+ ".") +:+ post
          +:+ " " +:+ message) /\
  ((forall field, In field required_fields -> slot s field = "") ->
   combined_input s message = " " +:+ message).
Proof.
  split.
  - intros f v Hf Hs Hv. unfold combined_input.
    destruct (join_In " " ("My " +:+ f +:+ " is " +:+ v +:+ ".")
                (map (fun kv => "My " +:+ kv.1 +:+ " is " +:+ kv.2 +:+ ".")
                   (List.filter (fun kv => Py.truthy kv.2) (existing_info s))))
      as (pre & post & E).
    { apply (in_map (fun kv => "My " +:+ kv.1 +:+ " is " +:+ kv.2 +:+ ".") _ (f, v)).
      apply filter_In. split.
      - unfold existing_info. replace v with (slot s f) by (unfold slot; now rewrite Hs).
        now apply (in_map (fun k => (k, slot s k))).
      - destruct v; [congruence | reflexivity]. }
    exists pre, post. rewrite E. now rewrite !string_app_assoc.
  - intros H. unfold combined_input, existing_info.
    cbn [map required_fields]. rewrite !H by (simpl; tauto). reflexivity.
Qed.

(** ** More on the turns of [chat] *)

Lemma valid_time_not_placeholder t :
  validate_time t = true -> is_placeholder t = false.
Proof.
  intros H. unfold is_placeholder. rewrite (validate_time_strip _ H).
  apply validate_time_shape in H as (Hh & M & -> & HH & _).
  destruct (numeral_first _ _ _ HH) as (c & H' & -> & Hc).
  rewrite string_app_cons. cbn [Py.lower].
  apply digit_cases in Hc. simpl in Hc.
  decompose [or] Hc; try contradiction; subst c; reflexivity.
Qed.

(** X14. An extracted date or time that passes its validator is not listed
    as missing and is stored exactly as extracted, whatever the other fields
    hold. *)
Theorem valid_date_time_persist booking_chain rag_chain urljoin req s bi :
  is_booking_flow (msg req) s = true ->
  booking_chain (combined_input s (msg req)) = Extracted bi ->
  exists s' reply,
    chat booking_chain rag_chain urljoin req s = Some (s', reply) /\
    (validate_date (BookingInfo.date bi) = true ->
     ~ In "date" (missing_fields bi) /\
     slots s' !! "date" = Some (BookingInfo.date bi)) /\
    (validate_time (BookingInfo.time bi) = true ->
     ~ In "time" (missing_fields bi) /\
     slots s' !! "time" = Some (BookingInfo.time bi)).
Proof.
  intros Hflow Hx.
  rewrite (chat_extracted booking_chain rag_chain urljoin req s bi Hflow Hx).
  destruct (booking_turn_returns urljoin req
              (conversation_history s ++ [user_turn (msg req)])%list bi (set_flag true s))
    as (s' & reply & -> & Hs & _).
  exists s', reply. split; [reflexivity |]. rewrite Hs. split; intros Hv.
  - pose proof (valid_date_not_placeholder _ Hv) as Hp. split.
    + rewrite missing_fields_In. unfold invalid_field.
      change (getattr bi "date" "") with (BookingInfo.date bi).
      intros [[_ H] | [_ [[_ H] | [[H _] | [H _]]]]]; congruence.
    + rewrite store_fields_lookup by (simpl; tauto).
      change (getattr bi "date" "") with (BookingInfo.date bi).
      now rewrite Hp, (validate_date_strip _ Hv).
  - pose proof (valid_time_not_placeholder _ Hv) as Hp. split.
    + rewrite missing_fields_In. unfold invalid_field.
      change (getattr bi "time" "") with (BookingInfo.time bi).
      intros [[_ H] | [_ [[H _] | [[_ H] | [H _]]]]]; congruence.
    + rewrite store_fields_lookup by (simpl; tauto).
      change (getattr bi "time" "") with (BookingInfo.time bi).
      now rewrite Hp, (validate_time_strip _ Hv).
Qed.


(** ** The further properties at sample inputs *)

Lemma partial_turn_run :
  chat (fun _ => Extracted partial_extraction) sample_rag sample_urljoin
    booking_request empty_session = Some partial_turn.
Proof. vm_compute. reflexivity. Defined.

Lemma complete_turn_run :
  chat (fun _ => Extracted complete_extraction) sample_rag sample_urljoin
    booking_request empty_session = Some complete_turn.
Proof. vm_compute. reflexivity. Defined.

Lemma question_turn_run :
  chat (fun _ => Failure) sample_rag sample_urljoin question_request empty_session
  = Some question_turn.
Proof. vm_compute. reflexivity. Defined.

Lemma partial_turn_reachable : reachable partial_turn.1.
Proof.
  exact (reachable_chat _ _ _ _ _ _ _ reachable_new partial_turn_run).
Defined.

Lemma complete_turn_reachable : reachable complete_turn.1.
Proof.
  exact (reachable_chat _ _ _ _ _ _ _ reachable_new complete_turn_run).
Defined.

Lemma chat_appends_two_turns_witness :
  chat (fun _ => Failure) sample_rag sample_urljoin question_request empty_session
  = Some question_turn /\
  conversation_history question_turn.1
  = [user_turn "What services do you offer?";
     assistant_turn "We offer therapy and counselling."] /\
  length (conversation_history question_turn.1) = 2.
Proof.
  split; [exact question_turn_run |].
  exact (chat_appends_two_turns (fun _ => Failure) sample_rag sample_urljoin
           question_request empty_session question_turn.1 question_turn.2
           question_turn_run).
Defined.



Lemma padded_date_missing_yet_stored_witness :
  is_booking_flow (msg booking_request) empty_session = true /\
  validate_date (Py.strip (BookingInfo.date padded_extraction)) = true /\
  Py.strip (BookingInfo.date padded_extraction) <> BookingInfo.date padded_extraction /\
  exists s' reply,
    chat (fun _ => Extracted padded_extraction) sample_rag sample_urljoin
      booking_request empty_session = Some (s', reply) /\
    In "date" (missing_fields padded_extraction) /\
    reply = follow_up (missing_fields padded_extraction) /\
    booking_in_progress s' = Some true /\
    slots s' !! "date" = Some (Py.strip (BookingInfo.date padded_extraction)) /\
    validate_date (slot s' "date") = true.
Proof.
  assert (Hvalid : validate_date (Py.strip (BookingInfo.date padded_extraction)) = true)
    by (vm_compute; reflexivity).
  assert (Hpad : Py.strip (BookingInfo.date padded_extraction)
                 <> BookingInfo.date padded_extraction)
    by (vm_compute; discriminate).
  split; [reflexivity |]. split; [exact Hvalid |]. split; [exact Hpad |].
  exact (padded_date_missing_yet_stored (fun _ => Extracted padded_extraction)
           sample_rag sample_urljoin booking_request empty_session
           padded_extraction eq_refl eq_refl Hvalid Hpad).
Defined.

Example padded_date_prompt :
  snd <$> chat (fun _ => Extracted padded_extraction) sample_rag sample_urljoin
            booking_request empty_session
  = Some "Sure! To proceed, please provide your date.".
Proof. vm_compute. reflexivity. Qed.

Lemma stored_slots_clean_witness :
  reachable partial_turn.1 /\
  forall field value, slots partial_turn.1 !! field = Some value ->
    In field required_fields /\ Py.strip value = value /\
    is_placeholder value = false /\ value <> "".
Proof.
  split; [exact partial_turn_reachable |].
  exact (stored_slots_clean partial_turn.1 partial_turn_reachable).
Defined.

Lemma idle_after_booking_is_complete_witness :
  reachable complete_turn.1 /\
  booking_in_progress complete_turn.1 = Some false /\
  (forall field, In field required_fields ->
      is_Some (slots complete_turn.1 !! field)) /\
  validate_date (slot complete_turn.1 "date") = true /\
  validate_time (slot complete_turn.1 "time") = true /\
  is_valid_email (slot complete_turn.1 "email") = true.
Proof.
  split; [exact complete_turn_reachable |]. split; [reflexivity |].
  exact (idle_after_booking_is_complete complete_turn.1 complete_turn_reachable
           eq_refl).
Defined.

Lemma history_alternates_witness :
  reachable partial_turn.1 /\
  alternating (conversation_history partial_turn.1) /\
  Nat.Even (length (conversation_history partial_turn.1)).
Proof.
  split; [exact partial_turn_reachable |].
  exact (history_alternates partial_turn.1 partial_turn_reachable).
Defined.

Lemma booking_query_injective_witness :
  let v := fun field : string => slot complete_turn.1 field in
  let w := fun field : string => Py.strip (getattr complete_extraction field "") in
  Url.urlencode (map (fun field => (field, v field)) required_fields)
  = Url.urlencode (map (fun field => (field, w field)) required_fields) /\
  forall field, In field required_fields -> v field = w field.
Proof.
  intros v w.
  assert (E : Url.urlencode (map (fun field => (field, v field)) required_fields)
              = Url.urlencode (map (fun field => (field, w field)) required_fields))
    by (vm_compute; reflexivity).
  split; [exact E |]. exact (booking_query_injective v w E).
Defined.

Lemma combined_input_carries_slots_witness :
  exists pre post,
    combined_input scenario_session "book it"
    = pre +:+ ("My " +:+ "email" +:+ " is " +:+ "bad@bad" +:+ ".") +:+ post
      +:+ " " +:+ "book it".
Proof.
  apply (proj1 (combined_input_carries_slots scenario_session "book it")
           "email" "bad@bad").
  - simpl. tauto.
  - vm_compute. reflexivity.
  - discriminate.
Defined.

Lemma valid_date_time_persist_witness :
  is_booking_flow (msg booking_request) empty_session = true /\
  exists s' reply,
    chat (fun _ => Extracted extraction_out_of_order) sample_rag sample_urljoin
      booking_request empty_session = Some (s', reply) /\
    (validate_date (BookingInfo.date extraction_out_of_order) = true ->
     ~ In "date" (missing_fields extraction_out_of_order) /\
     slots s' !! "date" = Some (BookingInfo.date extraction_out_of_order)) /\
    (validate_time (BookingInfo.time extraction_out_of_order) = true ->
     ~ In "time" (missing_fields extraction_out_of_order) /\
     slots s' !! "time" = Some (BookingInfo.time extraction_out_of_order)).
Proof.
  split; [reflexivity |].
  exact (valid_date_time_persist (fun _ => Extracted extraction_out_of_order)
           sample_rag sample_urljoin booking_request empty_session
           extraction_out_of_order eq_refl eq_refl).
Defined.
